(** * A 16-register virtual CPU: instruction fields, disassembler, execution engine

    Shallow embedding of [main.cpp].  Machine integers are [Z] with the
    wrap-around of their C++ type written out; the register array is a list
    read with stdpp's lookup and updated with stdpp's insert; standard output
    is the text written so far, threaded through a small monad whose results
    also record where the C++ program has no defined behaviour.

    The file has three parts: the program, the vocabulary in which its
    properties are stated, and the properties. *)

From Stdlib Require Import ZArith String Ascii List Lia DecimalString.
From stdpp Require Import base list.
Import ListNotations.

Local Open Scope string_scope.
Local Open Scope Z_scope.

(** * Part I: the program *)

(** ** Fixed-width integers *)

Module Int.

(** Conversion to [uint8_t], [uint16_t], [uint32_t]: reduction modulo 2^w. *)
Definition uint8 (z : Z) : Z := z mod 2 ^ 8.
Definition uint16 (z : Z) : Z := z mod 2 ^ 16.
Definition uint32 (z : Z) : Z := z mod 2 ^ 32.

(** The same 32 bits read as a two's-complement [int]. *)
Definition int32 (z : Z) : Z :=
  let u := uint32 z in if u <? 2 ^ 31 then u else u - 2 ^ 32.

Definition is_uint32 (z : Z) : Prop := 0 <= z < 2 ^ 32.

End Int.
Export Int.

(** ** Instruction fields

    The masks and the four [GET_] macros of the source. *)

Definition OPCODE_MASK : Z := 0xFF000000.
Definition R1_MASK : Z := 0x00F00000.
Definition R2_MASK : Z := 0x000F0000.
Definition R3IMM_MASK : Z := 0x0000FFFF.

Definition GET_OPCODE (instr : Z) : Z := Z.shiftr (Z.land instr OPCODE_MASK) 24.
Definition GET_R1 (instr : Z) : Z := Z.shiftr (Z.land instr R1_MASK) 20.
Definition GET_R2 (instr : Z) : Z := Z.shiftr (Z.land instr R2_MASK) 16.
Definition GET_R3IMM (instr : Z) : Z := Z.land instr R3IMM_MASK.

(** The four locals that both [decodeInstruction] and [executeInstruction]
    initialise first: [uint8_t opcode, r1, r2] and [uint16_t r3_imm]. *)
Record DecodedInstruction : Type := mkDecoded
  { opcode : Z; r1 : Z; r2 : Z; r3_imm : Z }.

Definition decode (instr : Z) : DecodedInstruction :=
  {| opcode := uint8 (GET_OPCODE instr);
     r1 := uint8 (GET_R1 instr);
     r2 := uint8 (GET_R2 instr);
     r3_imm := uint16 (GET_R3IMM instr) |}.

(** ** Standard output and undefined behaviour *)

(** What C++ leaves undefined in this program: an array subscript outside
    the 16 registers, and an integer division whose divisor is zero. *)
Inductive fault : Type :=
  | OutOfBounds
  | DivideByZero.

(** The error conditions of the error-handling policy. *)
Inductive condition : Type :=
  | IndexOutOfRange
  | DivisionByZero.

(** How a call ends.  [Normal a out]: it returns [a], the text on standard
    output being [out].  [Raised c]: it reports the checked error [c] to its
    caller.  [Undefined f]: the program has run into [f]; nothing is
    promised from there on, neither a value nor the output.
    No statement of the source builds [Raised]: the program has no checks,
    no return codes and no exceptions ([never_raises] below).  The
    constructor is there for the error policy to be stated on the code. *)
Inductive outcome (A : Type) : Type :=
  | Normal (a : A) (out : string)
  | Raised (c : condition)
  | Undefined (f : fault).
Arguments Normal {A} a out.
Arguments Raised {A} c.
Arguments Undefined {A} f.

(** A computation that writes to standard output: from the text written so
    far to an outcome. *)
Definition io (A : Type) : Type := string -> outcome A.

Definition ret {A : Type} (a : A) : io A := fun out => Normal a out.

Definition bind {A B : Type} (m : io A) (k : A -> io B) : io B :=
  fun out =>
    match m out with
    | Normal a out' => k a out'
    | Raised c => Raised c
    | Undefined f => Undefined f
    end.

Definition undefined {A : Type} (f : fault) : io A := fun _ => Undefined f.

Declare Scope io_scope.
Delimit Scope io_scope with io.
Notation "'let*' x := m 'in' k" := (bind m (fun x => k))
  (at level 10, x name, m at level 100, k at level 200) : io_scope.
Local Open Scope io_scope.

(** ** printf *)

(** The [%d] conversion: the argument is taken as an [int] and written in
    decimal, with a leading [-] when negative.  A [uint8_t] or [uint16_t]
    argument is promoted to [int] with its value; a [uint32_t] argument has
    the width of an [int] and is read as one, so that a value of 2^31 or
    more comes out negative. *)
Definition fmt_d (arg : Z) : string :=
  NilZero.string_of_int (Z.to_int (int32 arg)).

(** The line feed, and a string literal's [\n]. *)
Definition LF : ascii := ascii_of_nat 10.
Definition nl : string := String LF EmptyString.

(** The text of [printf(fmt, args...)] for formats whose only conversion is
    [%d].  Formats are written as in the source, the two characters [\n]
    standing for the line feed.  Every call of the source passes as many
    arguments as its format has conversions; a missing argument writes
    nothing here. *)
Fixpoint sprintf (fmt : string) (args : list Z) : string :=
  match fmt with
  | EmptyString => EmptyString
  | String "%" (String "d" rest) =>
      match args with
      | a :: args' => (fmt_d a ++ sprintf rest args')%string
      | [] => sprintf rest []
      end
  | String (Ascii false false true true true false true false)
      (String "n" rest) =>                       (* backslash, n *)
      String LF (sprintf rest args)
  | String c rest => String c (sprintf rest args)
  end.

Definition printf (fmt : string) (args : list Z) : io unit :=
  fun out => Normal tt (out ++ sprintf fmt args)%string.

(** ** The register array *)

(** [a[i]] as an rvalue: undefined outside the array. *)
Definition load (a : list Z) (i : Z) : io Z :=
  match a !! Z.to_nat i with
  | Some v => ret v
  | None => undefined OutOfBounds
  end.

(** [a[i] = v], the array after the assignment: undefined outside it. *)
Definition store (a : list Z) (i : Z) (v : Z) : io (list Z) :=
  if (Z.to_nat i <? length a)%nat
  then ret (<[Z.to_nat i := v]> a)
  else undefined OutOfBounds.

(** [a / b] on [uint32_t]: undefined when [b] is zero. *)
Definition udiv (a b : Z) : io Z :=
  if b =? 0 then undefined DivideByZero else ret (a / b).

(** ** The disassembler: [decodeInstruction] *)

Definition decodeInstruction (instr : Z) : io unit :=
  let d := decode instr in
  if opcode d =? 0x53 then printf "WRITE R%d\n" [r1 d]
  else if opcode d =? 0x54 then printf "MOV R%d, R%d\n" [r1 d; r2 d]
  else if opcode d =? 0x55 then printf "MOVli R%d, %d\n" [r1 d; r3_imm d]
  else if opcode d =? 0x56 then printf "MOVhi R%d, %d\n" [r1 d; r3_imm d]
  else if opcode d =? 0x57 then printf "ADD R%d, R%d, R%d\n" [r1 d; r2 d; r3_imm d]
  else if opcode d =? 0x58 then printf "ADDi R%d, R%d, %d\n" [r1 d; r2 d; r3_imm d]
  else if opcode d =? 0x59 then printf "SUB R%d, R%d, R%d\n" [r1 d; r2 d; r3_imm d]
  else if opcode d =? 0x60 then printf "SUBi R%d, R%d, %d\n" [r1 d; r2 d; r3_imm d]
  else if opcode d =? 0x61 then printf "MUL R%d, R%d, R%d\n" [r1 d; r2 d; r3_imm d]
  else if opcode d =? 0x62 then printf "MULi R%d, R%d, %d\n" [r1 d; r2 d; r3_imm d]
  else if opcode d =? 0x63 then printf "DIV R%d, R%d, R%d\n" [r1 d; r2 d; r3_imm d]
  else if opcode d =? 0x64 then printf "DIVi R%d, R%d, %d\n" [r1 d; r2 d; r3_imm d]
  else printf "UNKNOWN INSTRUCTION\n" [].

(** ** The execution engine: [executeInstruction]

    The register array is passed by pointer and updated in place: the
    function takes the array and returns it as the call leaves it.
    Unsigned arithmetic is reduced modulo 2^32.  In [r3_imm << 16] the
    operand is promoted to [int]; the shifted value, at most
    [0xFFFF0000], is converted to [uint32_t] by the assignment. *)

Definition executeInstruction (instr : Z) (registers : list Z) : io (list Z) :=
  let d := decode instr in
  if opcode d =? 0x53 then
    let* v := load registers (r1 d) in
    let* _ := printf "%d\n" [v] in
    ret registers
  else if opcode d =? 0x54 then
    let* v := load registers (r2 d) in
    store registers (r1 d) v
  else if opcode d =? 0x55 then
    store registers (r1 d) (uint32 (r3_imm d))
  else if opcode d =? 0x56 then
    store registers (r1 d) (uint32 (Z.shiftl (r3_imm d) 16))
  else if opcode d =? 0x57 then
    let* a := load registers (r2 d) in
    let* b := load registers (r3_imm d) in
    store registers (r1 d) (uint32 (a + b))
  else if opcode d =? 0x58 then
    let* a := load registers (r2 d) in
    store registers (r1 d) (uint32 (a + r3_imm d))
  else if opcode d =? 0x59 then
    let* a := load registers (r2 d) in
    let* b := load registers (r3_imm d) in
    store registers (r1 d) (uint32 (a - b))
  else if opcode d =? 0x60 then
    let* a := load registers (r2 d) in
    store registers (r1 d) (uint32 (a - r3_imm d))
  else if opcode d =? 0x61 then
    let* a := load registers (r2 d) in
    let* b := load registers (r3_imm d) in
    store registers (r1 d) (uint32 (a * b))
  else if opcode d =? 0x62 then
    let* a := load registers (r2 d) in
    store registers (r1 d) (uint32 (a * r3_imm d))
  else if opcode d =? 0x63 then
    let* a := load registers (r2 d) in
    let* b := load registers (r3_imm d) in
    let* q := udiv a b in
    store registers (r1 d) (uint32 q)
  else if opcode d =? 0x64 then
    let* a := load registers (r2 d) in
    let* q := udiv a (r3_imm d) in
    store registers (r1 d) (uint32 q)
  else
    let* _ := printf "UNKNOWN INSTRUCTION\n" [] in
    ret registers.

(** ** The two passes

    [bin] is the array of [binSize] words: a list, walked from its first
    word to its last as the [for] loops do. *)

Fixpoint printAsm_loop (bin : list Z) : io unit :=
  match bin with
  | [] => ret tt
  | instr :: rest =>
      let* _ := decodeInstruction instr in
      printAsm_loop rest
  end.

Definition printAsm (bin : list Z) : io unit :=
  let* _ := printf "INSTRUCTIONS:\n" [] in
  let* _ := printAsm_loop bin in
  printf "\n" [].

Fixpoint execute_loop (bin : list Z) (registers : list Z) : io (list Z) :=
  match bin with
  | [] => ret registers
  | instr :: rest =>
      let* registers' := executeInstruction instr registers in
      execute_loop rest registers'
  end.

(** [uint32_t registers[16] = {0}]. *)
Definition zero_registers : list Z := repeat 0 16.

Definition execute (bin : list Z) : io unit :=
  let* _ := printf "EXECUTION:\n" [] in
  let* _ := execute_loop bin zero_registers in
  printf "\n" [].

Definition BIN : list Z :=
  [0x56000001; 0x53000000; 0x64100100; 0x53100000;
   0x58210010; 0x53200000; 0x60310010; 0x53300000;
   0x57320003; 0x53300000; 0x59230002; 0x53200000;
   0x59330002; 0x53300000; 0x57120003; 0x53100000;
   0x62110010; 0x53100000; 0x63000001; 0x53000000].

Definition main : io Z :=
  let* _ := printAsm BIN in
  let* _ := execute BIN in
  ret 0.

(** * Part II: the vocabulary of the properties *)

(** ** Opcode classes *)

(** The twelve opcodes of the instruction set. *)
Definition known_opcodes : list Z :=
  [0x53; 0x54; 0x55; 0x56; 0x57; 0x58; 0x59; 0x60; 0x61; 0x62; 0x63; 0x64].

(** The opcodes whose [r3_imm] field is used as a register index. *)
Definition register_form : list Z := [0x57; 0x59; 0x61; 0x63].

(** ** The mnemonic table *)

Module Table.

(** The decimal numeral of an integer. *)
Definition decimal (z : Z) : string := NilZero.string_of_int (Z.to_int z).

(** How a row of the table renders its operands. *)
Inductive operands : Type :=
  | Reg1            (* R<r1> *)
  | Reg1_Reg2       (* R<r1>, R<r2> *)
  | Reg1_Imm        (* R<r1>, <r3_imm> *)
  | Reg1_Reg2_Reg3  (* R<r1>, R<r2>, R<r3_imm> *)
  | Reg1_Reg2_Imm.  (* R<r1>, R<r2>, <r3_imm> *)

(** The table of the instruction set, one row per opcode, as in the
    comment that heads the source: opcode, mnemonic, operands. *)
Definition rows : list (Z * (string * operands)) :=
  [ (0x53, ("WRITE", Reg1));
    (0x54, ("MOV", Reg1_Reg2));
    (0x55, ("MOVli", Reg1_Imm));
    (0x56, ("MOVhi", Reg1_Imm));
    (0x57, ("ADD", Reg1_Reg2_Reg3));
    (0x58, ("ADDi", Reg1_Reg2_Imm));
    (0x59, ("SUB", Reg1_Reg2_Reg3));
    (0x60, ("SUBi", Reg1_Reg2_Imm));
    (0x61, ("MUL", Reg1_Reg2_Reg3));
    (0x62, ("MULi", Reg1_Reg2_Imm));
    (0x63, ("DIV", Reg1_Reg2_Reg3));
    (0x64, ("DIVi", Reg1_Reg2_Imm)) ].

Fixpoint row_of (op : Z) (t : list (Z * (string * operands)))
  : option (string * operands) :=
  match t with
  | [] => None
  | (op', row) :: t' => if op =? op' then Some row else row_of op t'
  end.

Definition reg (n : Z) : string := ("R" ++ decimal n)%string.

Definition render (k : operands) (d : DecodedInstruction) : string :=
  match k with
  | Reg1 => reg (r1 d)
  | Reg1_Reg2 => reg (r1 d) ++ ", " ++ reg (r2 d)
  | Reg1_Imm => reg (r1 d) ++ ", " ++ decimal (r3_imm d)
  | Reg1_Reg2_Reg3 => reg (r1 d) ++ ", " ++ reg (r2 d) ++ ", " ++ reg (r3_imm d)
  | Reg1_Reg2_Imm => reg (r1 d) ++ ", " ++ reg (r2 d) ++ ", " ++ decimal (r3_imm d)
  end%string.

(** The mnemonic line of a decoded instruction, without its line feed. *)
Definition mnemonic (d : DecodedInstruction) : string :=
  match row_of (opcode d) rows with
  | Some (name, k) => (name ++ " " ++ render k d)%string
  | None => "UNKNOWN INSTRUCTION"
  end.

End Table.

(** ** Wrapping arithmetic *)

Module Alu.

(** The arithmetic of the six opcodes ADD, ADDi, SUB, SUBi, MUL, MULi on
    unsigned 32-bit values: the exact result reduced modulo 2^32. *)
Definition wrapping (op a b : Z) : Z :=
  (if (op =? 0x57) || (op =? 0x58) then a + b
   else if (op =? 0x59) || (op =? 0x60) then a - b
   else a * b) mod 2 ^ 32.

(** The second operand: the register [r3_imm] selects for the register
    forms, the immediate itself for the others. *)
Definition second_operand (d : DecodedInstruction) (registers : list Z)
  : option Z :=
  if existsb (Z.eqb (opcode d)) register_form
  then registers !! Z.to_nat (r3_imm d)
  else Some (r3_imm d).

End Alu.

(** ** Lines of output *)

Module Lines.

(** A text without line feed: the body of one line. *)
Fixpoint no_LF (s : string) : bool :=
  match s with
  | EmptyString => true
  | String c s' => negb (Ascii.eqb c LF) && no_LF s'
  end.

(** The lines [ls], each followed by its line feed. *)
Fixpoint unlines (ls : list string) : string :=
  match ls with
  | [] => EmptyString
  | l :: ls' => (l ++ nl ++ unlines ls')%string
  end.

End Lines.

(** ** Steps and runs *)

(** A computation that reports no error condition, whatever the output so
    far. *)
Definition quiet {A : Type} (m : io A) : Prop :=
  forall (out : string) (c : condition), m out <> Raised c.

(** The five ways a step on a 16-element register array ends: a WRITE
    line, the UNKNOWN INSTRUCTION line, an assignment to register r1, a
    division by zero, a read outside the array. *)
Inductive step_outcome (instr : Z) (registers : list Z) (out : string)
  : outcome (list Z) -> Prop :=
  | step_write (v : Z) :
      opcode (decode instr) = 0x53 ->
      registers !! Z.to_nat (r1 (decode instr)) = Some v ->
      step_outcome instr registers out
        (Normal registers (out ++ fmt_d v ++ nl)%string)
  | step_unknown :
      ~ In (opcode (decode instr)) known_opcodes ->
      step_outcome instr registers out
        (Normal registers (out ++ "UNKNOWN INSTRUCTION" ++ nl)%string)
  | step_assign (v : Z) :
      In (opcode (decode instr)) known_opcodes ->
      opcode (decode instr) <> 0x53 ->
      (Forall is_uint32 registers -> is_uint32 v) ->
      step_outcome instr registers out
        (Normal (<[Z.to_nat (r1 (decode instr)) := v]> registers) out)
  | step_divide_by_zero :
      (opcode (decode instr) = 0x63
         /\ registers !! Z.to_nat (r3_imm (decode instr)) = Some 0)
      \/ (opcode (decode instr) = 0x64 /\ r3_imm (decode instr) = 0) ->
      step_outcome instr registers out (Undefined DivideByZero)
  | step_outside :
      In (opcode (decode instr)) register_form ->
      15 < r3_imm (decode instr) ->
      step_outcome instr registers out (Undefined OutOfBounds).

(** The instructions that write a line when executed: WRITE, and those of
    unknown opcode. *)
Definition emits_line (instr : Z) : bool :=
  (opcode (decode instr) =? 0x53)
  || negb (existsb (Z.eqb (opcode (decode instr))) known_opcodes).

(** The line an instruction may write: a [%d] numeral for WRITE, the fixed
    text for an unknown opcode. *)
Inductive output_line (instr : Z) (l : string) : Prop :=
  | line_of_write (v : Z) :
      opcode (decode instr) = 0x53 -> l = fmt_d v -> output_line instr l
  | line_of_unknown :
      ~ In (opcode (decode instr)) known_opcodes ->
      l = "UNKNOWN INSTRUCTION" -> output_line instr l.

(** The instructions that can run into undefined behaviour. *)
Definition divides (instr : Z) : Prop :=
  opcode (decode instr) = 0x63
  \/ (opcode (decode instr) = 0x64 /\ r3_imm (decode instr) = 0).

Definition reads_outside (instr : Z) : Prop :=
  In (opcode (decode instr)) register_form /\ 15 < r3_imm (decode instr).

(** The instruction [instr], executed on [registers], runs into [f]: it
    divides by a divisor register that holds 0 or by an immediate 0, or it
    reads a register of index above 15. *)
Definition fault_at (instr : Z) (registers : list Z) (f : fault) : Prop :=
  match f with
  | DivideByZero =>
      (opcode (decode instr) = 0x63
         /\ registers !! Z.to_nat (r3_imm (decode instr)) = Some 0)
      \/ (opcode (decode instr) = 0x64 /\ r3_imm (decode instr) = 0)
  | OutOfBounds =>
      In (opcode (decode instr)) register_form /\ 15 < r3_imm (decode instr)
  end.

(** ** Words by their fields, and output by what is appended *)

(** The word [instr] has opcode [op] and operand fields [a], [b], [c]. *)
Definition has_fields (instr op a b c : Z) : Prop :=
  decode instr = mkDecoded op a b c.

(** An outcome, with the text [out] put before its output. *)
Definition prepend {A : Type} (out : string) (o : outcome A) : outcome A :=
  match o with
  | Normal a text => Normal a (out ++ text)%string
  | Raised c => Raised c
  | Undefined f => Undefined f
  end.

(** A computation that only appends to standard output: started after
    [out] it does what it does on an empty output, after [out]. *)
Definition appends {A : Type} (m : io A) : Prop :=
  forall out : string, m out = prepend out (m "").

(** * Part III: properties *)

(** ** Text *)

Lemma append_nil_r (s : string) : (s ++ "")%string = s.
Proof. induction s as [|c s IH]; simpl; [reflexivity | now rewrite IH]. Qed.

Lemma append_assoc (s t u : string) :
  ((s ++ t) ++ u)%string = (s ++ (t ++ u))%string.
Proof. induction s as [|c s IH]; simpl; [reflexivity | now rewrite IH]. Qed.

Example sprintf_mov :
  sprintf "MOV R%d, R%d\n" [3; 12] = ("MOV R3, R12" ++ nl)%string.
Proof. reflexivity. Qed.

Example sprintf_negative : sprintf "%d\n" [0x80000000] = ("-2147483648" ++ nl)%string.
Proof. reflexivity. Qed.

Example mnemonic_divi : Table.mnemonic (decode 0x64100100) = "DIVi R1, R0, 256".
Proof. reflexivity. Qed.

Example unlines_two : Lines.unlines ["65536"; "256"] = sprintf "65536\n256\n" [].
Proof. reflexivity. Qed.

(** ** Instruction fields *)

Lemma land_low_bits (a n : Z) : 0 <= n -> 0 <= Z.land a (Z.ones n) < 2 ^ n.
Proof.
  intros Hn. rewrite Z.land_ones by assumption. apply Z.mod_pos_bound. lia.
Qed.

Section Fields.

Variable instr : Z.

Lemma GET_OPCODE_spec : GET_OPCODE instr = Z.land (Z.shiftr instr 24) 0xFF.
Proof. unfold GET_OPCODE. now rewrite Z.shiftr_land. Qed.

Lemma GET_R1_spec : GET_R1 instr = Z.land (Z.shiftr instr 20) 0xF.
Proof. unfold GET_R1. now rewrite Z.shiftr_land. Qed.

Lemma GET_R2_spec : GET_R2 instr = Z.land (Z.shiftr instr 16) 0xF.
Proof. unfold GET_R2. now rewrite Z.shiftr_land. Qed.

Lemma opcode_range : 0 <= opcode (decode instr) <= 255.
Proof.
  unfold decode, uint8; cbn [opcode].
  pose proof (Z.mod_pos_bound (GET_OPCODE instr) (2 ^ 8)). lia.
Qed.

Lemma r1_range : 0 <= r1 (decode instr) <= 15.
Proof.
  unfold decode, uint8; cbn [r1]. rewrite GET_R1_spec.
  pose proof (land_low_bits (Z.shiftr instr 20) 4).
  change (Z.ones 4) with 0xF in *. rewrite Z.mod_small; lia.
Qed.

Lemma r2_range : 0 <= r2 (decode instr) <= 15.
Proof.
  unfold decode, uint8; cbn [r2]. rewrite GET_R2_spec.
  pose proof (land_low_bits (Z.shiftr instr 16) 4).
  change (Z.ones 4) with 0xF in *. rewrite Z.mod_small; lia.
Qed.

Lemma r3_imm_range : 0 <= r3_imm (decode instr) <= 65535.
Proof.
  unfold decode, uint16; cbn [r3_imm].
  pose proof (Z.mod_pos_bound (GET_R3IMM instr) (2 ^ 16)). lia.
Qed.

(** The narrowing conversions lose nothing: each macro's value already fits
    the local it initialises. *)
Lemma opcode_decode : opcode (decode instr) = Z.land (Z.shiftr instr 24) 0xFF.
Proof.
  unfold decode, uint8; cbn [opcode]. rewrite GET_OPCODE_spec.
  apply Z.mod_small. apply (land_low_bits _ 8). lia.
Qed.

Lemma r1_decode : r1 (decode instr) = Z.land (Z.shiftr instr 20) 0xF.
Proof.
  unfold decode, uint8; cbn [r1]. rewrite GET_R1_spec.
  apply Z.mod_small. pose proof (land_low_bits (Z.shiftr instr 20) 4).
  change (Z.ones 4) with 0xF in *. lia.
Qed.

Lemma r2_decode : r2 (decode instr) = Z.land (Z.shiftr instr 16) 0xF.
Proof.
  unfold decode, uint8; cbn [r2]. rewrite GET_R2_spec.
  apply Z.mod_small. pose proof (land_low_bits (Z.shiftr instr 16) 4).
  change (Z.ones 4) with 0xF in *. lia.
Qed.

Lemma r3_imm_decode : r3_imm (decode instr) = Z.land instr 0xFFFF.
Proof.
  unfold decode, uint16, GET_R3IMM; cbn [r3_imm].
  apply Z.mod_small. apply (land_low_bits _ 16). lia.
Qed.

End Fields.

(** C5.  [decode] is a total function of the instruction word: for every
    word (every integer, so every 32-bit one) the four fields are
    [(word >> 24) & 0xFF], [(word >> 20) & 0xF], [(word >> 16) & 0xF] and
    [word & 0xFFFF], within [0,255], [0,15], [0,15] and [0,65535]; and
    [0x56000001] decodes to opcode [0x56], r1 0, r2 0, r3_imm 1. *)
Theorem decode_total (word : Z) :
  decode word =
    {| opcode := Z.land (Z.shiftr word 24) 0xFF;
       r1 := Z.land (Z.shiftr word 20) 0xF;
       r2 := Z.land (Z.shiftr word 16) 0xF;
       r3_imm := Z.land word 0xFFFF |}
  /\ 0 <= opcode (decode word) <= 255
  /\ 0 <= r1 (decode word) <= 15
  /\ 0 <= r2 (decode word) <= 15
  /\ 0 <= r3_imm (decode word) <= 65535
  /\ decode 0x56000001 = {| opcode := 0x56; r1 := 0; r2 := 0; r3_imm := 1 |}.
Proof.
  split.
  - rewrite <- opcode_decode, <- r1_decode, <- r2_decode, <- r3_imm_decode.
    reflexivity.
  - pose proof (opcode_range word). pose proof (r1_range word).
    pose proof (r2_range word). pose proof (r3_imm_range word).
    repeat (split; [assumption |]). reflexivity.
Qed.

(** ** Loads, stores and divisions *)

Section Memory.

Variables (registers : list Z) (out : string).

Lemma load_ok (i v : Z) :
  registers !! Z.to_nat i = Some v -> load registers i out = Normal v out.
Proof. intros H. unfold load. now rewrite H. Qed.

Lemma load_outside (i : Z) :
  (length registers <= Z.to_nat i)%nat ->
  load registers i out = Undefined OutOfBounds.
Proof.
  intros H. unfold load. now rewrite (proj2 (lookup_ge_None registers _) H).
Qed.

Lemma store_ok (i v : Z) :
  (Z.to_nat i < length registers)%nat ->
  store registers i v out = Normal (<[Z.to_nat i := v]> registers) out.
Proof.
  intros H. unfold store. now rewrite (proj2 (Nat.ltb_lt _ _) H).
Qed.

Lemma udiv_ok (a b : Z) : b <> 0 -> udiv a b out = Normal (a / b) out.
Proof. intros H. unfold udiv. now rewrite (proj2 (Z.eqb_neq _ _) H). Qed.

Lemma udiv_zero (a : Z) : udiv a 0 out = Undefined DivideByZero.
Proof. reflexivity. Qed.

End Memory.

(** A register index taken from a nibble is inside a 16-element array. *)
Lemma nibble_inside (registers : list Z) (i : Z) :
  length registers = 16%nat -> 0 <= i <= 15 ->
  (Z.to_nat i < length registers)%nat.
Proof. intros -> H. lia. Qed.

Lemma nibble_lookup (registers : list Z) (i : Z) :
  length registers = 16%nat -> 0 <= i <= 15 ->
  exists v, registers !! Z.to_nat i = Some v.
Proof.
  intros Hlen H. apply lookup_lt_is_Some. now apply nibble_inside.
Qed.

Lemma is_uint32_mod (z : Z) : is_uint32 (uint32 z).
Proof. apply Z.mod_pos_bound. lia. Qed.

Lemma lookup_is_uint32 (registers : list Z) (i : nat) (v : Z) :
  registers !! i = Some v -> Forall is_uint32 registers -> is_uint32 v.
Proof. intros Hv Hall. exact (proj1 (Forall_lookup _ _) Hall i v Hv). Qed.

(** ** Case analysis on the opcode *)

(** Selecting the branch of a [switch] on [opcode]: once the opcode is
    known, the comparisons compute. *)
Ltac switch_on H :=
  rewrite H in *; cbn [Z.eqb Pos.eqb] in *.

(** Splitting a membership in a literal list into its cases. *)
Ltac cases_of H :=
  cbn [In] in H;
  repeat (destruct H as [H | H]; [symmetry in H |]);
  [.. | contradiction].

(** The default branch: every comparison of the [switch] fails. *)
Ltac default_branch H :=
  repeat match goal with
    | |- context [?a =? ?b] =>
        destruct (Z.eqb_spec a b) as [E | E];
        [exfalso; apply H; rewrite E; simpl; auto 20 | clear E]
    end.

Lemma known_existsb (op : Z) :
  existsb (Z.eqb op) known_opcodes = true <-> In op known_opcodes.
Proof.
  rewrite existsb_exists. split.
  - intros (x & Hx & Heq). apply Z.eqb_eq in Heq. now subst.
  - intros H. exists op. split; [assumption | apply Z.eqb_refl].
Qed.

Lemma register_form_existsb (op : Z) :
  existsb (Z.eqb op) register_form = true <-> In op register_form.
Proof.
  rewrite existsb_exists. split.
  - intros (x & Hx & Heq). apply Z.eqb_eq in Heq. now subst.
  - intros H. exists op. split; [assumption | apply Z.eqb_refl].
Qed.

(** C6.  An instruction whose opcode is none of the twelve is disassembled
    as the line [UNKNOWN INSTRUCTION], and executing it writes the same line
    and returns the register array as it was. *)
Theorem unknown_opcode (instr : Z) (registers : list Z) (out : string) :
  ~ In (opcode (decode instr)) known_opcodes ->
  decodeInstruction instr out =
    Normal tt (out ++ "UNKNOWN INSTRUCTION" ++ nl)%string
  /\ executeInstruction instr registers out =
       Normal registers (out ++ "UNKNOWN INSTRUCTION" ++ nl)%string.
Proof.
  intros H. split.
  - unfold decodeInstruction. cbv zeta. default_branch H. reflexivity.
  - unfold executeInstruction. cbv zeta. default_branch H. reflexivity.
Qed.

Lemma unknown_opcode_witness :
  ~ In (opcode (decode 0x5A012345)) known_opcodes
  /\ decodeInstruction 0x5A012345 "" =
       Normal tt ("UNKNOWN INSTRUCTION" ++ nl)%string
  /\ executeInstruction 0x5A012345 zero_registers "" =
       Normal zero_registers ("UNKNOWN INSTRUCTION" ++ nl)%string.
Proof.
  assert (H : ~ In (opcode (decode 0x5A012345)) known_opcodes).
  { vm_compute. intuition discriminate. }
  split; [exact H |].
  exact (unknown_opcode 0x5A012345 zero_registers "" H).
Defined.

(** ** The disassembler against the table *)

Lemma int32_small (z : Z) : 0 <= z < 2 ^ 31 -> int32 z = z.
Proof.
  intros H. unfold int32, uint32. rewrite Z.mod_small by lia.
  destruct (Z.ltb_spec z (2 ^ 31)); [reflexivity | lia].
Qed.

Lemma fmt_d_small (z : Z) : 0 <= z < 2 ^ 31 -> fmt_d z = Table.decimal z.
Proof. intros H. unfold fmt_d, Table.decimal. now rewrite int32_small. Qed.

(** From 2^31 on the [%d] text is the numeral of the value less 2^32. *)
Lemma fmt_d_large (v : Z) :
  2 ^ 31 <= v < 2 ^ 32 -> fmt_d v = Table.decimal (v - 2 ^ 32).
Proof.
  intros H. unfold fmt_d, Table.decimal, int32, uint32.
  rewrite Z.mod_small by lia.
  destruct (Z.ltb_spec v (2 ^ 31)); [lia | reflexivity].
Qed.

Section FieldText.

Variable instr : Z.

Lemma fmt_d_r1 : fmt_d (r1 (decode instr)) = Table.decimal (r1 (decode instr)).
Proof. apply fmt_d_small. pose proof (r1_range instr). lia. Qed.

Lemma fmt_d_r2 : fmt_d (r2 (decode instr)) = Table.decimal (r2 (decode instr)).
Proof. apply fmt_d_small. pose proof (r2_range instr). lia. Qed.

Lemma fmt_d_r3_imm :
  fmt_d (r3_imm (decode instr)) = Table.decimal (r3_imm (decode instr)).
Proof. apply fmt_d_small. pose proof (r3_imm_range instr). lia. Qed.

End FieldText.

(** Both sides of a text equation, flattened to right-nested appends. *)
Ltac flatten_text :=
  unfold nl; cbn [sprintf append Table.render Table.reg];
  repeat (rewrite append_assoc; cbn [append]).

(** The disassembler writes the table's line for the decoded fields. *)
Lemma decodeInstruction_line (instr : Z) (out : string) :
  decodeInstruction instr out =
    Normal tt (out ++ Table.mnemonic (decode instr) ++ nl)%string.
Proof.
  unfold decodeInstruction, Table.mnemonic, printf. cbv zeta.
  cbn [Table.rows Table.row_of].
  repeat match goal with
    | |- context [opcode (decode instr) =? ?b] =>
        destruct (Z.eqb_spec (opcode (decode instr)) b) as [E | E];
        [ cbv beta iota; do 2 f_equal; flatten_text;
          rewrite ?fmt_d_r1, ?fmt_d_r2, ?fmt_d_r3_imm; reflexivity
        | clear E ]
    end.
  reflexivity.
Qed.

Lemma no_LF_append (s t : string) :
  Lines.no_LF (s ++ t) = Lines.no_LF s && Lines.no_LF t.
Proof.
  induction s as [|c s IH]; simpl; [reflexivity |].
  rewrite IH. now rewrite andb_assoc.
Qed.

Lemma no_LF_digits (d : Decimal.uint) :
  Lines.no_LF (NilEmpty.string_of_uint d) = true.
Proof. induction d; simpl; auto. Qed.

Lemma no_LF_decimal (z : Z) : Lines.no_LF (Table.decimal z) = true.
Proof.
  unfold Table.decimal, NilZero.string_of_int, NilZero.string_of_uint.
  destruct (Z.to_int z) as [d | d]; destruct d; simpl;
    auto using no_LF_digits.
Qed.

Lemma no_LF_fmt_d (z : Z) : Lines.no_LF (fmt_d z) = true.
Proof. apply no_LF_decimal. Qed.

Lemma no_LF_mnemonic (d : DecodedInstruction) :
  Lines.no_LF (Table.mnemonic d) = true.
Proof.
  unfold Table.mnemonic.
  destruct (Table.row_of (opcode d) Table.rows) as [[name k] |] eqn:E;
    [| reflexivity].
  assert (Hname : Lines.no_LF name = true).
  { revert E. unfold Table.rows. cbn [Table.row_of].
    repeat match goal with
      | |- context [opcode d =? ?b] => destruct (opcode d =? b)
      end; intros [= <- <-] || discriminate; reflexivity. }
  destruct k; unfold Table.render, Table.reg;
    rewrite ?no_LF_append, ?no_LF_decimal, Hname; reflexivity.
Qed.

(** C4.  The disassembler writes, for every instruction word, exactly the
    line that the mnemonic table gives for its decoded fields: the row's
    mnemonic and operands in the row's order and with its separators,
    registers as [R<n>], immediates in decimal, [UNKNOWN INSTRUCTION] for
    an opcode without a row; the text is one line, closed by a line feed. *)
Theorem disassembly_matches_table (instr : Z) (out : string) :
  decodeInstruction instr out =
    Normal tt (out ++ Table.mnemonic (decode instr) ++ nl)%string
  /\ Lines.no_LF (Table.mnemonic (decode instr)) = true.
Proof.
  split; [apply decodeInstruction_line | apply no_LF_mnemonic].
Qed.

(** The rows of the table, spelled out. *)
Lemma mnemonic_by_opcode (a b c : Z) :
  let R := Table.reg in
  let imm := Table.decimal in
  (Table.mnemonic (mkDecoded 0x53 a b c) = "WRITE " ++ R a
   /\ Table.mnemonic (mkDecoded 0x54 a b c) = "MOV " ++ R a ++ ", " ++ R b
   /\ Table.mnemonic (mkDecoded 0x55 a b c) = "MOVli " ++ R a ++ ", " ++ imm c
   /\ Table.mnemonic (mkDecoded 0x56 a b c) = "MOVhi " ++ R a ++ ", " ++ imm c
   /\ Table.mnemonic (mkDecoded 0x57 a b c) = "ADD " ++ R a ++ ", " ++ R b ++ ", " ++ R c
   /\ Table.mnemonic (mkDecoded 0x58 a b c) = "ADDi " ++ R a ++ ", " ++ R b ++ ", " ++ imm c
   /\ Table.mnemonic (mkDecoded 0x59 a b c) = "SUB " ++ R a ++ ", " ++ R b ++ ", " ++ R c
   /\ Table.mnemonic (mkDecoded 0x60 a b c) = "SUBi " ++ R a ++ ", " ++ R b ++ ", " ++ imm c
   /\ Table.mnemonic (mkDecoded 0x61 a b c) = "MUL " ++ R a ++ ", " ++ R b ++ ", " ++ R c
   /\ Table.mnemonic (mkDecoded 0x62 a b c) = "MULi " ++ R a ++ ", " ++ R b ++ ", " ++ imm c
   /\ Table.mnemonic (mkDecoded 0x63 a b c) = "DIV " ++ R a ++ ", " ++ R b ++ ", " ++ R c
   /\ Table.mnemonic (mkDecoded 0x64 a b c) = "DIVi " ++ R a ++ ", " ++ R b ++ ", " ++ imm c
   /\ Table.mnemonic (mkDecoded 0x5A a b c) = "UNKNOWN INSTRUCTION")%string.
Proof. repeat split. Qed.

(** ** No path reports an error *)

Section Quiet.

Context {A B : Type}.

Lemma quiet_ret (a : A) : quiet (ret a).
Proof. intros out c. discriminate. Qed.

Lemma quiet_undefined (f : fault) : quiet (undefined (A := A) f).
Proof. intros out c. discriminate. Qed.

Lemma quiet_bind (m : io A) (k : A -> io B) :
  quiet m -> (forall a, quiet (k a)) -> quiet (bind m k).
Proof.
  intros Hm Hk out c. unfold bind.
  destruct (m out) as [a out' | c' | f] eqn:E.
  - apply Hk.
  - now apply Hm in E.
  - discriminate.
Qed.

End Quiet.

Lemma quiet_printf (fmt : string) (args : list Z) : quiet (printf fmt args).
Proof. intros out c. discriminate. Qed.

Lemma quiet_load (a : list Z) (i : Z) : quiet (load a i).
Proof.
  unfold load. destruct (a !! Z.to_nat i); [apply quiet_ret | apply quiet_undefined].
Qed.

Lemma quiet_store (a : list Z) (i v : Z) : quiet (store a i v).
Proof.
  unfold store.
  destruct (Z.to_nat i <? length a)%nat; [apply quiet_ret | apply quiet_undefined].
Qed.

Lemma quiet_udiv (a b : Z) : quiet (udiv a b).
Proof. unfold udiv. destruct (b =? 0); [apply quiet_undefined | apply quiet_ret]. Qed.

Create HintDb quiet.
#[local] Hint Resolve quiet_ret quiet_undefined quiet_printf quiet_load
  quiet_store quiet_udiv : quiet.
#[local] Hint Extern 2 (quiet (bind _ _)) => apply quiet_bind; [| intro] : quiet.

(** No path of the engine reports an error condition. *)
Lemma never_raises (instr : Z) (registers : list Z) :
  quiet (executeInstruction instr registers).
Proof.
  unfold executeInstruction. cbv zeta.
  repeat match goal with
    | |- context [?a =? ?b] => destruct (a =? b)
    end; auto 10 with quiet.
Qed.

(** ** Arithmetic *)

(** C7.  ADD, ADDi, SUB, SUBi, MUL and MULi compute on unsigned 32-bit
    values modulo 2^32 and complete normally whatever the operand values:
    with [a] the value of register r2 and [b] the second operand (register
    r3_imm for ADD, SUB, MUL; the immediate for ADDi, SUBi, MULi), the step
    returns the registers with register r1 set to the exact result reduced
    modulo 2^32, and writes nothing.  In particular [SUBi R0, R0, 1] from
    zeroed registers leaves [0xFFFFFFFF] in register 0. *)
Theorem arithmetic_wraps (instr : Z) (registers : list Z) (out : string) (a b : Z) :
  length registers = 16%nat ->
  In (opcode (decode instr)) [0x57; 0x58; 0x59; 0x60; 0x61; 0x62] ->
  registers !! Z.to_nat (r2 (decode instr)) = Some a ->
  Alu.second_operand (decode instr) registers = Some b ->
  executeInstruction instr registers out =
    Normal (<[Z.to_nat (r1 (decode instr)) :=
                Alu.wrapping (opcode (decode instr)) a b]> registers) out
  /\ 0 <= Alu.wrapping (opcode (decode instr)) a b < 2 ^ 32
  /\ executeInstruction 0x60000001 zero_registers out =
       Normal (<[0%nat := 0xFFFFFFFF]> zero_registers) out.
Proof.
  intros Hlen Hop Ha Hb.
  pose proof (nibble_inside registers _ Hlen (r1_range instr)) as Hr1.
  split; [| split; [apply Z.mod_pos_bound; lia | reflexivity]].
  unfold executeInstruction, Alu.second_operand, Alu.wrapping in *. cbv zeta.
  cases_of Hop; switch_on Hop; cbn [existsb register_form orb Z.eqb Pos.eqb] in Hb;
    unfold bind at 1; rewrite (load_ok _ _ _ _ Ha);
    try (unfold bind at 1; rewrite (load_ok _ _ _ _ Hb));
    try (injection Hb as <-);
    now rewrite store_ok.
Qed.

Lemma arithmetic_wraps_witness :
  let registers := [0; 0x10000; 7; 0x10001; 0; 0; 0; 0; 0; 0; 0; 0; 0; 0; 0; 0] in
  length registers = 16%nat
  /\ In (opcode (decode 0x61210003)) [0x57; 0x58; 0x59; 0x60; 0x61; 0x62]
  /\ registers !! Z.to_nat (r2 (decode 0x61210003)) = Some 0x10000
  /\ Alu.second_operand (decode 0x61210003) registers = Some 0x10001
  /\ executeInstruction 0x61210003 registers "" =
       Normal [0; 0x10000; 0x10000; 0x10001; 0; 0; 0; 0; 0; 0; 0; 0; 0; 0; 0; 0] "".
Proof.
  intros registers.
  assert (Hlen : length registers = 16%nat) by reflexivity.
  assert (Hop : In (opcode (decode 0x61210003)) [0x57; 0x58; 0x59; 0x60; 0x61; 0x62]).
  { vm_compute. auto 10. }
  assert (Ha : registers !! Z.to_nat (r2 (decode 0x61210003)) = Some 0x10000)
    by reflexivity.
  assert (Hb : Alu.second_operand (decode 0x61210003) registers = Some 0x10001)
    by reflexivity.
  refine (conj Hlen (conj Hop (conj Ha (conj Hb _)))).
  exact (proj1 (arithmetic_wraps 0x61210003 registers "" 0x10000 0x10001 Hlen Hop Ha Hb)).
Defined.

(** ** Faults of the execution engine *)

(** C2 (as amended).  A DIV whose divisor register, of index at most 15,
    holds 0, and a DIVi whose immediate is 0, divide unchecked: the step
    reports no condition and runs into the division by zero, which C++
    leaves undefined. *)
Theorem division_by_zero_unchecked (instr : Z) (registers : list Z) (out : string) :
  length registers = 16%nat ->
  (opcode (decode instr) = 0x63
     /\ registers !! Z.to_nat (r3_imm (decode instr)) = Some 0)
  \/ (opcode (decode instr) = 0x64 /\ r3_imm (decode instr) = 0) ->
  executeInstruction instr registers out = Undefined DivideByZero.
Proof.
  intros Hlen H.
  destruct (nibble_lookup registers _ Hlen (r2_range instr)) as [a Ha].
  unfold executeInstruction. cbv zeta.
  destruct H as [[Hop Hb] | [Hop Himm]]; switch_on Hop; unfold bind;
    rewrite (load_ok _ _ _ _ Ha); cbv beta iota.
  - now rewrite (load_ok _ _ _ _ Hb).
  - now rewrite Himm.
Qed.

Lemma division_by_zero_unchecked_witness :
  length zero_registers = 16%nat
  /\ ((opcode (decode 0x63120003) = 0x63
        /\ zero_registers !! Z.to_nat (r3_imm (decode 0x63120003)) = Some 0)
      \/ (opcode (decode 0x63120003) = 0x64 /\ r3_imm (decode 0x63120003) = 0))
  /\ executeInstruction 0x63120003 zero_registers "" = Undefined DivideByZero.
Proof.
  assert (Hlen : length zero_registers = 16%nat) by reflexivity.
  assert (H : (opcode (decode 0x63120003) = 0x63
               /\ zero_registers !! Z.to_nat (r3_imm (decode 0x63120003)) = Some 0)
              \/ (opcode (decode 0x63120003) = 0x64 /\ r3_imm (decode 0x63120003) = 0)).
  { left. split; reflexivity. }
  refine (conj Hlen (conj H _)).
  exact (division_by_zero_unchecked 0x63120003 zero_registers "" Hlen H).
Defined.

(** C2, as stated, fails: [DIVi R1, R0, 0] on zeroed registers does not
    end with the DivisionByZero condition. *)
Lemma division_by_zero_not_reported :
  opcode (decode 0x64100000) = 0x64
  /\ r3_imm (decode 0x64100000) = 0
  /\ executeInstruction 0x64100000 zero_registers "" = Undefined DivideByZero
  /\ executeInstruction 0x64100000 zero_registers "" <> Raised DivisionByZero.
Proof. repeat split. discriminate. Qed.

(** C3 (as amended).  ADD, SUB, MUL and DIV read [registers[r3_imm]] with
    no bounds check: when [r3_imm] exceeds 15 the step reports no condition
    and reads outside the 16-element array, which C++ leaves undefined. *)
Theorem register_operand_unchecked (instr : Z) (registers : list Z) (out : string) :
  length registers = 16%nat ->
  In (opcode (decode instr)) register_form ->
  15 < r3_imm (decode instr) ->
  executeInstruction instr registers out = Undefined OutOfBounds.
Proof.
  intros Hlen Hop Hr3.
  destruct (nibble_lookup registers _ Hlen (r2_range instr)) as [a Ha].
  assert (Hout : (length registers <= Z.to_nat (r3_imm (decode instr)))%nat) by lia.
  unfold executeInstruction, register_form in *. cbv zeta.
  cases_of Hop; switch_on Hop; unfold bind;
    rewrite (load_ok _ _ _ _ Ha); cbv beta iota;
    now rewrite load_outside.
Qed.

Lemma register_operand_unchecked_witness :
  length zero_registers = 16%nat
  /\ In (opcode (decode 0x61000010)) register_form
  /\ 15 < r3_imm (decode 0x61000010)
  /\ executeInstruction 0x61000010 zero_registers "" = Undefined OutOfBounds.
Proof.
  assert (Hlen : length zero_registers = 16%nat) by reflexivity.
  assert (Hop : In (opcode (decode 0x61000010)) register_form).
  { vm_compute. auto 10. }
  assert (Hr3 : 15 < r3_imm (decode 0x61000010)) by reflexivity.
  refine (conj Hlen (conj Hop (conj Hr3 _))).
  exact (register_operand_unchecked 0x61000010 zero_registers "" Hlen Hop Hr3).
Defined.

(** C3, as stated, fails: [ADD R0, R0, R16] on zeroed registers does not
    end with the IndexOutOfRange condition. *)
Lemma register_operand_not_checked :
  opcode (decode 0x57000010) = 0x57
  /\ r3_imm (decode 0x57000010) = 16
  /\ executeInstruction 0x57000010 zero_registers "" = Undefined OutOfBounds
  /\ executeInstruction 0x57000010 zero_registers "" <> Raised IndexOutOfRange.
Proof. repeat split. discriminate. Qed.

(** ** WRITE *)

(** A WRITE step: one line, the [%d] text of register r1; the registers
    are returned as they were. *)
Lemma write_step (instr : Z) (registers : list Z) (out : string) (v : Z) :
  opcode (decode instr) = 0x53 ->
  registers !! Z.to_nat (r1 (decode instr)) = Some v ->
  executeInstruction instr registers out =
    Normal registers (out ++ fmt_d v ++ nl)%string.
Proof.
  intros Hop Hv. unfold executeInstruction. cbv zeta. switch_on Hop.
  unfold bind. rewrite (load_ok _ _ _ _ Hv). reflexivity.
Qed.

(** Below 2^31 the line is the decimal value of the unsigned register. *)
Lemma write_step_small (instr : Z) (registers : list Z) (out : string) (v : Z) :
  opcode (decode instr) = 0x53 ->
  registers !! Z.to_nat (r1 (decode instr)) = Some v ->
  0 <= v < 2 ^ 31 ->
  executeInstruction instr registers out =
    Normal registers (out ++ Table.decimal v ++ nl)%string.
Proof.
  intros Hop Hv Hsmall. rewrite <- (fmt_d_small v Hsmall).
  now apply write_step.
Qed.

(** C8 (the code at the failing input).  With [0xFFFFFFFF] in register 0,
    [WRITE R0] writes the line [-1], not the decimal value [4294967295] of
    the unsigned register; the registers are unchanged.  The state is
    reached by the program [SUBi R0, R0, 1; WRITE R0]. *)
Theorem write_large_value :
  let registers := <[0%nat := 0xFFFFFFFF]> zero_registers in
  executeInstruction 0x53000000 registers "" =
    Normal registers ("-1" ++ nl)%string
  /\ Table.decimal 0xFFFFFFFF = "4294967295"
  /\ execute [0x60000001; 0x53000000] "" =
       Normal tt ("EXECUTION:" ++ nl ++ "-1" ++ nl ++ nl)%string.
Proof. repeat split. Qed.

(** ** What a step can do *)

Section Step.

Variables (instr : Z) (registers : list Z) (out : string).
Hypothesis Hlen : length registers = 16%nat.

(** The third operand of a register form: a register, or outside. *)
Lemma third_operand :
  (exists b, registers !! Z.to_nat (r3_imm (decode instr)) = Some b
             /\ r3_imm (decode instr) <= 15)
  \/ (15 < r3_imm (decode instr)
      /\ load registers (r3_imm (decode instr)) out = Undefined OutOfBounds).
Proof.
  destruct (Z_le_gt_dec (r3_imm (decode instr)) 15) as [Hle | Hgt].
  - left. destruct (nibble_lookup registers (r3_imm (decode instr)) Hlen) as [b Hb].
    + pose proof (r3_imm_range instr). lia.
    + eauto.
  - right. split; [lia |]. apply load_outside. lia.
Qed.

(** Every step on a 16-element array ends in one of the five ways. *)
Lemma step_spec :
  step_outcome instr registers out (executeInstruction instr registers out).
Proof.
  destruct (nibble_lookup registers _ Hlen (r1_range instr)) as [v1 H1].
  destruct (nibble_lookup registers _ Hlen (r2_range instr)) as [a Ha].
  pose proof (nibble_inside registers _ Hlen (r1_range instr)) as Hr1.
  assert (Hknown : forall op, opcode (decode instr) = op ->
                              existsb (Z.eqb op) known_opcodes = true ->
                              In (opcode (decode instr)) known_opcodes).
  { intros op -> H. now apply known_existsb. }
  assert (Hform : forall op, opcode (decode instr) = op ->
                             existsb (Z.eqb op) register_form = true ->
                             In (opcode (decode instr)) register_form).
  { intros op -> H. now apply register_form_existsb. }
  destruct (Z.eq_dec (opcode (decode instr)) 0x53) as [E | N53].
  { rewrite (write_step instr registers out v1 E H1). now apply step_write. }
  unfold executeInstruction. cbv zeta.
  rewrite (proj2 (Z.eqb_neq _ _) N53).
  repeat match goal with
    | |- context [opcode (decode instr) =? ?b] =>
        destruct (Z.eqb_spec (opcode (decode instr)) b) as [E | ?];
        [ specialize (Hknown _ E eq_refl); unfold bind;
          rewrite ?(load_ok _ _ _ _ Ha); cbv beta iota
        | ]
    end.
  all: try (destruct third_operand as [(b & Hb & Hle) | (Hgt & Hb)];
            [ rewrite (load_ok _ _ _ _ Hb); cbv beta iota
            | rewrite Hb; apply step_outside; [now apply (Hform _ E) | assumption] ]).
  all: try match goal with
    | |- context [udiv ?x ?y out] =>
        destruct (Z.eq_dec y 0) as [Hz | Hz];
        [ rewrite Hz in *; rewrite udiv_zero; apply step_divide_by_zero; tauto
        | rewrite (udiv_ok out x y Hz); cbv beta iota ]
    end.
  all: try (rewrite (store_ok _ _ _ _ Hr1); apply step_assign;
            [assumption | assumption
            | first [ intros _; apply is_uint32_mod
                    | apply (lookup_is_uint32 _ _ _ Ha) ] ]).
  apply (step_unknown instr registers out).
  unfold known_opcodes. cbn [In]. intuition congruence.
Qed.

(** The registers stay 16 values of 32 bits. *)
Lemma step_keeps_registers (registers' : list Z) (out' : string) :
  Forall is_uint32 registers ->
  executeInstruction instr registers out = Normal registers' out' ->
  length registers' = 16%nat /\ Forall is_uint32 registers'.
Proof.
  intros Hall. destruct step_spec as [v _ _ | _ | v _ _ Hv | _ | _ _];
    intros [= <- <-] || discriminate; try (split; assumption).
  split; [now rewrite length_insert | apply Forall_insert; auto].
Qed.

End Step.

(** ** The frame of a step *)

(** C10.  On a 16-element register array, with [r3_imm] at most 15 where
    it is a register index, a step either completes, and then every
    register other than r1 holds the value it held before (and for WRITE
    and for an unknown opcode the array is returned as it was), or is a
    DIV or DIVi by zero, which leaves no state to speak of. *)
Theorem step_frame (instr : Z) (registers : list Z) (out : string) :
  length registers = 16%nat ->
  (In (opcode (decode instr)) register_form -> r3_imm (decode instr) <= 15) ->
  match executeInstruction instr registers out with
  | Normal registers' _ =>
      length registers' = 16%nat
      /\ (forall j : nat, j <> Z.to_nat (r1 (decode instr)) ->
            registers' !! j = registers !! j)
      /\ (opcode (decode instr) = 0x53
          \/ ~ In (opcode (decode instr)) known_opcodes ->
          registers' = registers)
  | Raised _ => False
  | Undefined f =>
      f = DivideByZero
      /\ ((opcode (decode instr) = 0x63
             /\ registers !! Z.to_nat (r3_imm (decode instr)) = Some 0)
          \/ (opcode (decode instr) = 0x64 /\ r3_imm (decode instr) = 0))
  end.
Proof.
  intros Hlen Hr3.
  destruct (step_spec instr registers out Hlen)
    as [v Hop Hv | Hun | v Hk Hn Hv | Hz | Hform Hgt].
  - auto.
  - auto.
  - split; [now rewrite length_insert |]. split.
    + intros j Hj. apply list_lookup_insert_ne. congruence.
    + intros [H | H]; contradiction.
  - auto.
  - specialize (Hr3 Hform). lia.
Qed.

Lemma step_frame_witness :
  let registers := [5; 6; 7; 8; 0; 0; 0; 0; 0; 0; 0; 0; 0; 0; 0; 9] in
  length registers = 16%nat
  /\ (In (opcode (decode 0x5712000F)) register_form ->
      r3_imm (decode 0x5712000F) <= 15)
  /\ match executeInstruction 0x5712000F registers "" with
     | Normal registers' _ =>
         length registers' = 16%nat
         /\ (forall j : nat, j <> Z.to_nat (r1 (decode 0x5712000F)) ->
               registers' !! j = registers !! j)
         /\ (opcode (decode 0x5712000F) = 0x53
             \/ ~ In (opcode (decode 0x5712000F)) known_opcodes ->
             registers' = registers)
     | Raised _ => False
     | Undefined f =>
         f = DivideByZero
         /\ ((opcode (decode 0x5712000F) = 0x63
                /\ registers !! Z.to_nat (r3_imm (decode 0x5712000F)) = Some 0)
             \/ (opcode (decode 0x5712000F) = 0x64
                 /\ r3_imm (decode 0x5712000F) = 0))
     end.
Proof.
  intros registers.
  assert (Hlen : length registers = 16%nat) by reflexivity.
  assert (Hr3 : In (opcode (decode 0x5712000F)) register_form ->
                r3_imm (decode 0x5712000F) <= 15).
  { intros _. vm_compute. discriminate. }
  refine (conj Hlen (conj Hr3 _)).
  exact (step_frame 0x5712000F registers "" Hlen Hr3).
Defined.

(** ** The two passes *)

Lemma output_line_no_LF (instr : Z) (l : string) :
  output_line instr l -> Lines.no_LF l = true.
Proof. intros [v _ -> | _ ->]; [apply no_LF_fmt_d | reflexivity]. Qed.

Section EmitsLine.

Variable instr : Z.

Lemma emits_line_write : opcode (decode instr) = 0x53 -> emits_line instr = true.
Proof. intros H. unfold emits_line. now rewrite H. Qed.

Lemma emits_line_unknown :
  ~ In (opcode (decode instr)) known_opcodes -> emits_line instr = true.
Proof.
  intros H. unfold emits_line.
  destruct (existsb _ known_opcodes) eqn:E.
  - now apply known_existsb in E.
  - apply orb_true_r.
Qed.

Lemma emits_line_assign :
  In (opcode (decode instr)) known_opcodes -> opcode (decode instr) <> 0x53 ->
  emits_line instr = false.
Proof.
  intros Hk Hn. unfold emits_line.
  rewrite (proj2 (known_existsb _) Hk), (proj2 (Z.eqb_neq _ _) Hn). reflexivity.
Qed.

End EmitsLine.

(** The loop of [printAsm]: one table line per word, in order. *)
Lemma printAsm_loop_spec (bin : list Z) : forall out : string,
  printAsm_loop bin out =
    Normal tt (out ++ Lines.unlines (map (fun w => Table.mnemonic (decode w)) bin))%string.
Proof.
  induction bin as [|instr rest IH]; intros out; cbn [printAsm_loop map Lines.unlines].
  - unfold ret. now rewrite append_nil_r.
  - unfold bind. rewrite decodeInstruction_line, IH.
    now rewrite !append_assoc.
Qed.

(** The loop of [execute], by induction on the program, the registers and
    the output so far varying: it completes with 16 registers and one line
    per emitting instruction, or runs into a fault that an instruction of
    the program accounts for. *)
Lemma execute_loop_spec (bin : list Z) : forall (registers : list Z) (out : string),
  length registers = 16%nat ->
  match execute_loop bin registers out with
  | Normal registers' out' =>
      length registers' = 16%nat
      /\ exists ls, out' = (out ++ Lines.unlines ls)%string
                    /\ Forall2 output_line (List.filter emits_line bin) ls
  | Raised _ => False
  | Undefined DivideByZero => Exists divides bin
  | Undefined OutOfBounds => Exists reads_outside bin
  end.
Proof.
  induction bin as [|instr rest IH]; intros registers out Hlen;
    cbn [execute_loop List.filter].
  - split; [assumption |]. exists []. split; [| constructor].
    cbn [Lines.unlines]. now rewrite append_nil_r.
  - unfold bind.
    destruct (step_spec instr registers out Hlen)
      as [v Hop Hv | Hun | v Hk Hn Hv | Hz | Hform Hgt].
    + rewrite (emits_line_write _ Hop).
      specialize (IH registers (out ++ fmt_d v ++ nl)%string Hlen).
      destruct (execute_loop rest registers _) as [r o | c | [|]];
        [| assumption | now apply Exists_cons_tl ..].
      destruct IH as (Hr & ls & -> & Hls). split; [assumption |].
      exists (fmt_d v :: ls). split.
      * cbn [Lines.unlines]. now rewrite !append_assoc.
      * constructor; [now apply (line_of_write instr _ v) | assumption].
    + rewrite (emits_line_unknown _ Hun).
      specialize (IH registers (out ++ "UNKNOWN INSTRUCTION" ++ nl)%string Hlen).
      destruct (execute_loop rest registers _) as [r o | c | [|]];
        [| assumption | now apply Exists_cons_tl ..].
      destruct IH as (Hr & ls & -> & Hls). split; [assumption |].
      exists ("UNKNOWN INSTRUCTION" :: ls)%string. split.
      * cbn [Lines.unlines]. now rewrite !append_assoc.
      * constructor; [now apply line_of_unknown | assumption].
    + rewrite (emits_line_assign _ Hk Hn).
      assert (Hlen' : length (<[Z.to_nat (r1 (decode instr)) := v]> registers) = 16%nat)
        by now rewrite length_insert.
      specialize (IH _ out Hlen').
      destruct (execute_loop rest _ out) as [r o | c | [|]];
        [assumption | assumption | now apply Exists_cons_tl ..].
    + apply Exists_cons_hd. unfold divides. tauto.
    + apply Exists_cons_hd. now split.
Qed.

(** An instruction that faults on the registers it is given ends the step
    in that fault. *)
Lemma step_faults (instr : Z) (registers : list Z) (out : string) (f : fault) :
  length registers = 16%nat ->
  fault_at instr registers f ->
  executeInstruction instr registers out = Undefined f.
Proof.
  intros Hlen Hf.
  destruct (nibble_lookup registers _ Hlen (r2_range instr)) as [a Ha].
  unfold executeInstruction. cbv zeta.
  destruct f; cbn [fault_at] in Hf.
  - destruct Hf as [Hop Hgt].
    assert (Hout : (length registers <= Z.to_nat (r3_imm (decode instr)))%nat) by lia.
    unfold register_form in Hop.
    cases_of Hop; switch_on Hop; unfold bind;
      rewrite (load_ok _ _ _ _ Ha); cbv beta iota;
      now rewrite load_outside.
  - destruct Hf as [[Hop Hb] | [Hop Himm]]; switch_on Hop; unfold bind;
      rewrite (load_ok _ _ _ _ Ha); cbv beta iota.
    + now rewrite (load_ok _ _ _ _ Hb).
    + now rewrite Himm.
Qed.

(** What a step's outcome tells, read off its five ways to end. *)
Lemma step_normal_length (instr : Z) (registers r : list Z) (out o : string) :
  length registers = 16%nat ->
  executeInstruction instr registers out = Normal r o ->
  length r = 16%nat.
Proof.
  intros Hlen E. pose proof (step_spec instr registers out Hlen) as Hs.
  rewrite E in Hs. inversion Hs; subst; try assumption.
  now rewrite length_insert.
Qed.

Lemma step_undefined_fault (instr : Z) (registers : list Z) (out : string) (f : fault) :
  length registers = 16%nat ->
  executeInstruction instr registers out = Undefined f ->
  fault_at instr registers f.
Proof.
  intros Hlen E. pose proof (step_spec instr registers out Hlen) as Hs.
  rewrite E in Hs. inversion Hs; subst; cbn [fault_at]; tauto.
Qed.

(** A run that ends in a fault has reached, after a part of the program
    that completed, an instruction that faults on the registers it finds. *)
Lemma execute_loop_fault (bin : list Z) : forall (registers : list Z) (out : string),
  length registers = 16%nat ->
  forall f : fault,
  execute_loop bin registers out = Undefined f ->
  exists (pre : list Z) (instr : Z) (post registers' : list Z) (text : string),
    bin = (pre ++ instr :: post)%list
    /\ execute_loop pre registers out = Normal registers' text
    /\ fault_at instr registers' f.
Proof.
  induction bin as [|instr rest IH]; intros registers out Hlen f;
    cbn [execute_loop]; [discriminate |].
  unfold bind.
  destruct (executeInstruction instr registers out) as [r o | c | g] eqn:E.
  - intros Hrun.
    pose proof (step_normal_length _ _ _ _ _ Hlen E) as Hr.
    destruct (IH r o Hr f Hrun) as (pre & w & post & regs & text & -> & Hpre & Hw).
    exists (instr :: pre), w, post, regs, text.
    split; [reflexivity |]. split; [| assumption].
    cbn [execute_loop]. unfold bind. now rewrite E.
  - discriminate.
  - intros [= ->]. exists [], instr, rest, registers, out.
    split; [reflexivity |]. split; [reflexivity |].
    exact (step_undefined_fault _ _ _ _ Hlen E).
Qed.

(** Conversely, a run that reaches such an instruction ends in its fault,
    whatever follows. *)
Lemma execute_loop_reaches_fault (pre : list Z) (instr : Z) (post : list Z) :
  forall (registers registers' : list Z) (out text : string) (f : fault),
  execute_loop pre registers out = Normal registers' text ->
  length registers' = 16%nat ->
  fault_at instr registers' f ->
  execute_loop (pre ++ instr :: post) registers out = Undefined f.
Proof.
  induction pre as [|w pre IH]; intros registers registers' out text f;
    cbn [execute_loop app].
  - intros [= <- <-] Hlen Hf. unfold bind. now rewrite (step_faults _ _ _ _ Hlen Hf).
  - unfold bind.
    destruct (executeInstruction w registers out) as [r o | c | g];
      [apply IH | discriminate | discriminate].
Qed.

(** A completed run from 16 registers ends on 16 registers. *)
Lemma execute_loop_length (bin registers registers' : list Z) (out text : string) :
  length registers = 16%nat ->
  execute_loop bin registers out = Normal registers' text ->
  length registers' = 16%nat.
Proof.
  intros Hlen Hrun. pose proof (execute_loop_spec bin registers out Hlen) as H.
  rewrite Hrun in H. tauto.
Qed.

(** C9 (as amended).  For every program the disassembly pass writes the
    header line [INSTRUCTIONS:], one mnemonic line per instruction in
    program order, and a blank line.  The execution pass completes, having
    written the header line [EXECUTION:], one line per instruction that is
    a WRITE or has an unknown opcode, in program order, and a blank line,
    exactly when its run reaches no instruction that divides by zero (a DIV
    whose divisor register holds 0 at that point, a DIVi with immediate 0)
    or reads a register of index above 15 (an ADD, SUB, MUL or DIV whose
    [r3_imm] exceeds 15): if the pass does not complete, a part of the
    program has run to completion and the next instruction is such a one
    on the registers then reached; and if the run reaches such an
    instruction, the pass is undefined behaviour of that kind and promises
    no output. *)
Theorem passes_output (bin : list Z) (out : string) :
  printAsm bin out =
    Normal tt (out ++ "INSTRUCTIONS:" ++ nl
                 ++ Lines.unlines (map (fun w => Table.mnemonic (decode w)) bin)
                 ++ nl)%string
  /\ Forall (fun w => Lines.no_LF (Table.mnemonic (decode w)) = true) bin
  /\ match execute bin out with
     | Normal _ text =>
         exists ls : list string,
           text = (out ++ "EXECUTION:" ++ nl ++ Lines.unlines ls ++ nl)%string
           /\ Forall2 output_line (List.filter emits_line bin) ls
           /\ Forall (fun l => Lines.no_LF l = true) ls
     | Raised _ => False
     | Undefined f =>
         exists (pre : list Z) (instr : Z) (post registers : list Z) (text : string),
           bin = (pre ++ instr :: post)%list
           /\ execute_loop pre zero_registers (out ++ "EXECUTION:" ++ nl)%string =
                Normal registers text
           /\ fault_at instr registers f
     end
  /\ (forall (pre : list Z) (instr : Z) (post registers : list Z)
             (text : string) (f : fault),
        bin = (pre ++ instr :: post)%list ->
        execute_loop pre zero_registers (out ++ "EXECUTION:" ++ nl)%string =
          Normal registers text ->
        fault_at instr registers f ->
        execute bin out = Undefined f).
Proof.
  split; [| split; [| split]].
  - unfold printAsm, bind, printf. rewrite printAsm_loop_spec.
    cbn [sprintf]. fold nl. now rewrite !append_assoc.
  - apply Forall_forall. intros w _. apply no_LF_mnemonic.
  - unfold execute, bind, printf at 1.
    pose proof (execute_loop_spec bin zero_registers
                  (out ++ sprintf "EXECUTION:\n" []) eq_refl) as H.
    pose proof (execute_loop_fault bin zero_registers
                  (out ++ sprintf "EXECUTION:\n" []) eq_refl) as Hfault.
    destruct (execute_loop bin zero_registers _) as [r o | c | f].
    + destruct H as (_ & ls & -> & Hls).
      exists ls. split; [| split].
      * unfold printf. cbn [sprintf]. fold nl. now rewrite !append_assoc.
      * assumption.
      * clear -Hls. induction Hls as [|w l ws ls' Hl _ IH]; constructor;
          [now apply (output_line_no_LF w) | assumption].
    + assumption.
    + exact (Hfault f eq_refl).
  - intros pre instr post registers text f -> Hpre Hf.
    assert (Hlen : length registers = 16%nat)
      by exact (execute_loop_length pre zero_registers registers _ text eq_refl Hpre).
    assert (E : execute_loop (pre ++ instr :: post) zero_registers
                  (out ++ sprintf "EXECUTION:\n" []) = Undefined f)
      by exact (execute_loop_reaches_fault pre instr post _ _ _ _ f Hpre Hlen Hf).
    unfold execute, bind, printf at 1. now rewrite E.
Qed.

(** A program free of the instructions that can fault always completes its
    execution pass. *)
Lemma execute_completes (bin : list Z) (out : string) :
  Forall (fun w => ~ divides w /\ ~ reads_outside w) bin ->
  exists text : string, execute bin out = Normal tt text.
Proof.
  intros Hsafe. unfold execute, bind, printf at 1.
  pose proof (execute_loop_spec bin zero_registers
                (out ++ sprintf "EXECUTION:\n" []) eq_refl) as H.
  destruct (execute_loop bin zero_registers _) as [r o | c | [|]].
  - eexists. reflexivity.
  - contradiction.
  - apply Exists_exists in H as (w & Hw & Hbad).
    apply (proj1 (Forall_forall _ _) Hsafe) in Hw. tauto.
  - apply Exists_exists in H as (w & Hw & Hbad).
    apply (proj1 (Forall_forall _ _) Hsafe) in Hw. tauto.
Qed.

(** C9, as stated, fails: the execution pass of the one-word program
    [DIVi R0, R0, 0] divides by zero and completes with no output at all,
    so not with a header line followed by a blank line. *)
Lemma execute_may_not_complete :
  execute [0x64000000] "" = Undefined DivideByZero
  /\ forall text : string, execute [0x64000000] "" <> Normal tt text.
Proof. split; [reflexivity | discriminate]. Qed.

(** ** The program of [main] *)

(** C1.  Executing the 20-word program from zeroed registers writes, after
    the header line, the ten lines 65536, 256, 272, 240, 512, 240, 272,
    512, 8192, 8, in that order, and the closing blank line. *)
Theorem full_scenario (out : string) :
  execute BIN out =
    Normal tt (out ++ "EXECUTION:" ++ nl
                 ++ Lines.unlines ["65536"; "256"; "272"; "240"; "512";
                                   "240"; "272"; "512"; "8192"; "8"]
                 ++ nl)%string.
Proof.
  unfold execute, bind, printf at 1.
  cbv -[append].
  rewrite !append_assoc. reflexivity.
Qed.

(** The whole output of [main], as the comment that closes the source
    expects it. *)
Example main_output :
  main "" =
    Normal 0
      (Lines.unlines
         ["INSTRUCTIONS:";
          "MOVhi R0, 1"; "WRITE R0"; "DIVi R1, R0, 256"; "WRITE R1";
          "ADDi R2, R1, 16"; "WRITE R2"; "SUBi R3, R1, 16"; "WRITE R3";
          "ADD R3, R2, R3"; "WRITE R3"; "SUB R2, R3, R2"; "WRITE R2";
          "SUB R3, R3, R2"; "WRITE R3"; "ADD R1, R2, R3"; "WRITE R1";
          "MULi R1, R1, 16"; "WRITE R1"; "DIV R0, R0, R1"; "WRITE R0";
          "";
          "EXECUTION:";
          "65536"; "256"; "272"; "240"; "512"; "240"; "272"; "512"; "8192"; "8";
          ""]).
Proof. reflexivity. Qed.

(** * Part IV: further properties of the program *)

(** ** The fields and the word *)

Lemma field_as_div_mod (w s n : Z) :
  0 <= s -> 0 <= n -> Z.land (Z.shiftr w s) (Z.ones n) = (w / 2 ^ s) mod 2 ^ n.
Proof. intros Hs Hn. now rewrite Z.land_ones, Z.shiftr_div_pow2. Qed.

Lemma fields_div_mod (word : Z) :
  opcode (decode word) = (word / 2 ^ 24) mod 2 ^ 8
  /\ r1 (decode word) = (word / 2 ^ 20) mod 2 ^ 4
  /\ r2 (decode word) = (word / 2 ^ 16) mod 2 ^ 4
  /\ r3_imm (decode word) = word mod 2 ^ 16.
Proof.
  rewrite opcode_decode, r1_decode, r2_decode, r3_imm_decode.
  change 0xFF with (Z.ones 8). change 0xF with (Z.ones 4).
  change 0xFFFF with (Z.ones 16).
  rewrite !field_as_div_mod by lia. now rewrite Z.land_ones by lia.
Qed.

Ltac powers_of_two :=
  change (2 ^ 32) with 4294967296 in *; change (2 ^ 24) with 16777216 in *;
  change (2 ^ 20) with 1048576 in *; change (2 ^ 16) with 65536 in *;
  change (2 ^ 8) with 256 in *; change (2 ^ 4) with 16 in *.

(** X1.  The four fields lose no bit of a 32-bit word: the word is its
    opcode, r1, r2 and r3_imm fields put back at bits 24, 20, 16 and 0. *)
Theorem fields_cover_word (word : Z) :
  is_uint32 word ->
  word = opcode (decode word) * 2 ^ 24 + r1 (decode word) * 2 ^ 20
         + r2 (decode word) * 2 ^ 16 + r3_imm (decode word).
Proof.
  intros Hw. destruct (fields_div_mod word) as (-> & -> & -> & ->).
  unfold is_uint32 in Hw. powers_of_two.
  Z.to_euclidean_division_equations; lia.
Qed.

Lemma fields_cover_word_witness :
  is_uint32 0x59230002
  /\ 0x59230002 = opcode (decode 0x59230002) * 2 ^ 24
                  + r1 (decode 0x59230002) * 2 ^ 20
                  + r2 (decode 0x59230002) * 2 ^ 16
                  + r3_imm (decode 0x59230002).
Proof.
  assert (Hw : is_uint32 0x59230002) by (unfold is_uint32; lia).
  refine (conj Hw _).
  exact (fields_cover_word 0x59230002 Hw).
Defined.

(** X2.  Conversely, a word put together from an opcode byte, two register
    nibbles and a 16-bit operand decodes to exactly those four fields. *)
Theorem decode_of_fields (op a b c : Z) :
  0 <= op <= 255 -> 0 <= a <= 15 -> 0 <= b <= 15 -> 0 <= c <= 65535 ->
  decode (op * 2 ^ 24 + a * 2 ^ 20 + b * 2 ^ 16 + c) = mkDecoded op a b c.
Proof.
  intros Hop Ha Hb Hc.
  set (w := op * 2 ^ 24 + a * 2 ^ 20 + b * 2 ^ 16 + c).
  assert (E : decode w = mkDecoded (opcode (decode w)) (r1 (decode w))
                           (r2 (decode w)) (r3_imm (decode w))) by reflexivity.
  rewrite E. destruct (fields_div_mod w) as (-> & -> & -> & ->). subst w.
  powers_of_two.
  f_equal; Z.to_euclidean_division_equations; lia.
Qed.

Lemma decode_of_fields_witness :
  0 <= 0x62 <= 255 /\ 0 <= 1 <= 15 /\ 0 <= 1 <= 15 /\ 0 <= 16 <= 65535
  /\ decode (0x62 * 2 ^ 24 + 1 * 2 ^ 20 + 1 * 2 ^ 16 + 16) = mkDecoded 0x62 1 1 16.
Proof.
  assert (Hop : 0 <= 0x62 <= 255) by lia.
  assert (Ha : 0 <= 1 <= 15) by lia.
  assert (Hc : 0 <= 16 <= 65535) by lia.
  refine (conj Hop (conj Ha (conj Ha (conj Hc _)))).
  exact (decode_of_fields 0x62 1 1 16 Hop Ha Ha Hc).
Defined.

(** ** Steps by their fields *)

Section StepByFields.

Variables (instr op a b c : Z) (registers : list Z) (out : string).
Hypothesis Hf : has_fields instr op a b c.
Hypothesis Hlen : length registers = 16%nat.

Lemma has_fields_r1 : 0 <= a <= 15.
Proof. pose proof (r1_range instr) as H. unfold has_fields in Hf. now rewrite Hf in H. Qed.

Lemma has_fields_r2 : 0 <= b <= 15.
Proof. pose proof (r2_range instr) as H. unfold has_fields in Hf. now rewrite Hf in H. Qed.

Lemma has_fields_r3_imm : 0 <= c <= 65535.
Proof. pose proof (r3_imm_range instr) as H. unfold has_fields in Hf. now rewrite Hf in H. Qed.

Lemma has_fields_store (v : Z) :
  store registers a v out = Normal (<[Z.to_nat a := v]> registers) out.
Proof. apply store_ok. apply nibble_inside; [assumption | apply has_fields_r1]. Qed.

(** Opening the [switch] at the opcode [op]. *)
Lemma executeInstruction_fields :
  executeInstruction instr registers out =
    (if op =? 0x53 then
       let* v := load registers a in
       let* _ := printf "%d\n" [v] in
       ret registers
     else if op =? 0x54 then
       let* v := load registers b in store registers a v
     else if op =? 0x55 then store registers a (uint32 c)
     else if op =? 0x56 then store registers a (uint32 (Z.shiftl c 16))
     else if op =? 0x57 then
       let* x := load registers b in
       let* y := load registers c in store registers a (uint32 (x + y))
     else if op =? 0x58 then
       let* x := load registers b in store registers a (uint32 (x + c))
     else if op =? 0x59 then
       let* x := load registers b in
       let* y := load registers c in store registers a (uint32 (x - y))
     else if op =? 0x60 then
       let* x := load registers b in store registers a (uint32 (x - c))
     else if op =? 0x61 then
       let* x := load registers b in
       let* y := load registers c in store registers a (uint32 (x * y))
     else if op =? 0x62 then
       let* x := load registers b in store registers a (uint32 (x * c))
     else if op =? 0x63 then
       let* x := load registers b in
       let* y := load registers c in
       let* q := udiv x y in store registers a (uint32 q)
     else if op =? 0x64 then
       let* x := load registers b in
       let* q := udiv x c in store registers a (uint32 q)
     else
       let* _ := printf "UNKNOWN INSTRUCTION\n" [] in
       ret registers) out.
Proof. unfold executeInstruction, has_fields in *. now rewrite Hf. Qed.

End StepByFields.

(** Running a step whose fields and operands are known. *)
Ltac step_fields Hf Hlen :=
  rewrite (executeInstruction_fields _ _ _ _ _ _ _ Hf);
  cbn [Z.eqb Pos.eqb]; unfold bind;
  repeat match goal with
    | H : ?regs !! Z.to_nat ?i = Some ?v |- context [load ?regs ?i ?o] =>
        rewrite (load_ok regs o i v H); cbv beta iota
    end;
  rewrite ?(has_fields_store _ _ _ _ _ _ _ Hf Hlen).

(** ** Moves and divisions *)

Section Moves.

Variables (instr a b c : Z) (registers : list Z) (out : string).
Hypothesis Hlen : length registers = 16%nat.

Lemma step_MOV (v : Z) :
  has_fields instr 0x54 a b c ->
  registers !! Z.to_nat b = Some v ->
  executeInstruction instr registers out =
    Normal (<[Z.to_nat a := v]> registers) out.
Proof. intros Hf Hv. now step_fields Hf Hlen. Qed.

Lemma step_MOVli :
  has_fields instr 0x55 a b c ->
  executeInstruction instr registers out =
    Normal (<[Z.to_nat a := c]> registers) out.
Proof.
  intros Hf. pose proof (has_fields_r3_imm _ _ _ _ _ Hf) as Hc.
  step_fields Hf Hlen. unfold uint32. rewrite Z.mod_small by lia. reflexivity.
Qed.

Lemma step_MOVhi :
  has_fields instr 0x56 a b c ->
  executeInstruction instr registers out =
    Normal (<[Z.to_nat a := c * 65536]> registers) out.
Proof.
  intros Hf. pose proof (has_fields_r3_imm _ _ _ _ _ Hf) as Hc.
  step_fields Hf Hlen. unfold uint32. rewrite Z.shiftl_mul_pow2 by lia.
  rewrite Z.mod_small by lia. reflexivity.
Qed.

End Moves.

(** X3.  On 16 registers the three moves always complete and write
    nothing: MOV copies register r2 into r1; MOVli sets r1 to the 16-bit
    immediate; MOVhi sets r1 to the immediate times 65536, no bit of it
    being lost. *)
Theorem move_semantics (instr a b c : Z) (registers : list Z) (out : string) :
  length registers = 16%nat ->
  (has_fields instr 0x54 a b c ->
     exists v, registers !! Z.to_nat b = Some v
               /\ executeInstruction instr registers out =
                    Normal (<[Z.to_nat a := v]> registers) out)
  /\ (has_fields instr 0x55 a b c ->
        executeInstruction instr registers out =
          Normal (<[Z.to_nat a := c]> registers) out)
  /\ (has_fields instr 0x56 a b c ->
        executeInstruction instr registers out =
          Normal (<[Z.to_nat a := c * 65536]> registers) out).
Proof.
  intros Hlen. split; [| split]; intros Hf.
  - destruct (nibble_lookup registers b Hlen (has_fields_r2 _ _ _ _ _ Hf)) as [v Hv].
    exists v. split; [assumption |]. now apply (step_MOV _ _ b c).
  - now apply (step_MOVli _ _ b).
  - now apply (step_MOVhi _ _ b).
Qed.

Lemma move_semantics_witness :
  length zero_registers = 16%nat
  /\ has_fields 0x56300001 0x56 3 0 1
  /\ executeInstruction 0x56300001 zero_registers "" =
       Normal (<[3%nat := 65536]> zero_registers) "".
Proof.
  assert (Hlen : length zero_registers = 16%nat) by reflexivity.
  assert (Hf : has_fields 0x56300001 0x56 3 0 1) by reflexivity.
  refine (conj Hlen (conj Hf _)).
  exact (proj2 (proj2 (move_semantics 0x56300001 3 0 1 zero_registers "" Hlen)) Hf).
Defined.

(** X4.  On 16 registers of 32 bits, a DIV whose divisor register (index
    at most 15) is not 0 and a DIVi whose immediate is not 0 complete,
    write nothing and set r1 to the quotient of the unsigned division,
    rounded down; the quotient is at most the dividend. *)
Theorem division_semantics (instr op a b c : Z) (registers : list Z)
    (out : string) (x y : Z) :
  length registers = 16%nat ->
  Forall is_uint32 registers ->
  has_fields instr op a b c ->
  registers !! Z.to_nat b = Some x ->
  (op = 0x63 /\ registers !! Z.to_nat c = Some y) \/ (op = 0x64 /\ y = c) ->
  y <> 0 ->
  executeInstruction instr registers out =
    Normal (<[Z.to_nat a := x / y]> registers) out
  /\ 0 <= x / y <= x.
Proof.
  intros Hlen Hall Hf Hx Hy Hnz.
  pose proof (lookup_is_uint32 _ _ _ Hx Hall) as Hx32. unfold is_uint32 in Hx32.
  pose proof (has_fields_r3_imm _ _ _ _ _ Hf) as Hc.
  assert (Hpos : 0 < y).
  { destruct Hy as [[_ Hy] | [_ ->]]; [| lia].
    pose proof (lookup_is_uint32 _ _ _ Hy Hall) as H. unfold is_uint32 in H. lia. }
  assert (Hq : 0 <= x / y <= x).
  { split; [apply Z.div_pos; lia |]. apply Z.div_le_upper_bound; nia. }
  split; [| assumption].
  assert (Hwrap : uint32 (x / y) = x / y) by (apply Z.mod_small; lia).
  destruct Hy as [[-> Hy] | [-> ->]]; step_fields Hf Hlen;
    rewrite (udiv_ok _ _ _ Hnz); cbv beta iota;
    rewrite (has_fields_store _ _ _ _ _ _ _ Hf Hlen); now rewrite Hwrap.
Qed.

Lemma division_semantics_witness :
  let registers := [65536; 7; 0; 0; 0; 0; 0; 0; 0; 0; 0; 0; 0; 0; 0; 0] in
  length registers = 16%nat
  /\ Forall is_uint32 registers
  /\ has_fields 0x63200001 0x63 2 0 1
  /\ registers !! Z.to_nat 0 = Some 65536
  /\ ((0x63 = 0x63 /\ registers !! Z.to_nat 1 = Some 7) \/ (0x63 = 0x64 /\ 7 = 1))
  /\ 7 <> 0
  /\ executeInstruction 0x63200001 registers "" =
       Normal [65536; 7; 9362; 0; 0; 0; 0; 0; 0; 0; 0; 0; 0; 0; 0; 0] "".
Proof.
  intros registers.
  assert (Hlen : length registers = 16%nat) by reflexivity.
  assert (Hall : Forall is_uint32 registers).
  { unfold registers, is_uint32. repeat constructor; lia. }
  assert (Hf : has_fields 0x63200001 0x63 2 0 1) by reflexivity.
  assert (Hx : registers !! Z.to_nat 0 = Some 65536) by reflexivity.
  assert (Hy : (0x63 = 0x63 /\ registers !! Z.to_nat 1 = Some 7)
               \/ (0x63 = 0x64 /\ 7 = 1)) by (left; split; reflexivity).
  assert (Hnz : 7 <> 0) by lia.
  refine (conj Hlen (conj Hall (conj Hf (conj Hx (conj Hy (conj Hnz _)))))).
  exact (proj1 (division_semantics 0x63200001 0x63 2 0 1 registers "" 65536 7
                  Hlen Hall Hf Hx Hy Hnz)).
Defined.

(** ** WRITE, for every register value *)

(** X5.  WRITE writes the 32-bit register as a signed number: the
    register's value when it is below 2^31, that value less 2^32 (a
    negative numeral) from 2^31 on; one line, registers unchanged. *)
Theorem write_prints_signed (instr a b c : Z) (registers : list Z)
    (out : string) (v : Z) :
  has_fields instr 0x53 a b c ->
  registers !! Z.to_nat a = Some v ->
  is_uint32 v ->
  executeInstruction instr registers out =
    Normal registers
      (out ++ Table.decimal (if v <? 2 ^ 31 then v else v - 2 ^ 32)%Z ++ nl)%string.
Proof.
  intros Hf Hv H32. unfold is_uint32 in H32.
  rewrite (executeInstruction_fields _ _ _ _ _ _ _ Hf).
  cbn [Z.eqb Pos.eqb]. unfold bind. rewrite (load_ok _ _ _ _ Hv).
  unfold printf, ret. cbn [sprintf]. do 3 f_equal.
  destruct (Z.ltb_spec v (2 ^ 31)); [apply fmt_d_small | apply fmt_d_large]; lia.
Qed.

Lemma write_prints_signed_witness :
  let registers := <[2%nat := 0x80000000]> zero_registers in
  has_fields 0x53200000 0x53 2 0 0
  /\ registers !! Z.to_nat 2 = Some 0x80000000
  /\ is_uint32 0x80000000
  /\ executeInstruction 0x53200000 registers "" =
       Normal registers ("-2147483648" ++ nl)%string.
Proof.
  intros registers.
  assert (Hf : has_fields 0x53200000 0x53 2 0 0) by reflexivity.
  assert (Hv : registers !! Z.to_nat 2 = Some 0x80000000) by reflexivity.
  assert (H32 : is_uint32 0x80000000) by (unfold is_uint32; lia).
  refine (conj Hf (conj Hv (conj H32 _))).
  exact (write_prints_signed 0x53200000 2 0 0 registers "" 0x80000000 Hf Hv H32).
Defined.

(** ** When a step completes *)

(** X6.  On 16 registers a step completes unless it is a DIV whose divisor
    register holds 0, a DIVi with immediate 0, or an ADD, SUB, MUL or DIV
    whose [r3_imm] exceeds 15: every other instruction, of known or unknown
    opcode, returns 16 registers. *)
Theorem step_completes (instr : Z) (registers : list Z) (out : string) :
  length registers = 16%nat ->
  ~ (opcode (decode instr) = 0x63
     /\ registers !! Z.to_nat (r3_imm (decode instr)) = Some 0) ->
  ~ (opcode (decode instr) = 0x64 /\ r3_imm (decode instr) = 0) ->
  ~ (In (opcode (decode instr)) register_form /\ 15 < r3_imm (decode instr)) ->
  exists (registers' : list Z) (out' : string),
    executeInstruction instr registers out = Normal registers' out'
    /\ length registers' = 16%nat.
Proof.
  intros Hlen Hdiv Hdivi Hout.
  destruct (step_spec instr registers out Hlen)
    as [v Hop Hv | Hun | v Hk Hn Hv | Hz | Hform Hgt].
  - eauto.
  - eauto.
  - do 2 eexists. split; [reflexivity | now rewrite length_insert].
  - tauto.
  - tauto.
Qed.

Lemma step_completes_witness :
  length zero_registers = 16%nat
  /\ ~ (opcode (decode 0x64100100) = 0x63
        /\ zero_registers !! Z.to_nat (r3_imm (decode 0x64100100)) = Some 0)
  /\ ~ (opcode (decode 0x64100100) = 0x64 /\ r3_imm (decode 0x64100100) = 0)
  /\ ~ (In (opcode (decode 0x64100100)) register_form
        /\ 15 < r3_imm (decode 0x64100100))
  /\ exists (registers' : list Z) (out' : string),
       executeInstruction 0x64100100 zero_registers "" = Normal registers' out'
       /\ length registers' = 16%nat.
Proof.
  assert (Hlen : length zero_registers = 16%nat) by reflexivity.
  assert (H1 : ~ (opcode (decode 0x64100100) = 0x63
                  /\ zero_registers !! Z.to_nat (r3_imm (decode 0x64100100)) = Some 0)).
  { intros [H _]. vm_compute in H. discriminate. }
  assert (H2 : ~ (opcode (decode 0x64100100) = 0x64 /\ r3_imm (decode 0x64100100) = 0)).
  { intros [_ H]. vm_compute in H. discriminate. }
  assert (H3 : ~ (In (opcode (decode 0x64100100)) register_form
                  /\ 15 < r3_imm (decode 0x64100100))).
  { intros [H _]. vm_compute in H. intuition discriminate. }
  refine (conj Hlen (conj H1 (conj H2 (conj H3 _)))).
  exact (step_completes 0x64100100 zero_registers "" Hlen H1 H2 H3).
Defined.

(** ** Sequences of instructions *)

(** X7.  Running a program made of two parts is running the first part and
    then, from the registers and the output it leaves, the second; if the
    first part runs into undefined behaviour so does the whole, whatever
    follows. *)
Theorem execute_loop_app (p q : list Z) (registers : list Z) (out : string) :
  execute_loop (p ++ q) registers out =
    match execute_loop p registers out with
    | Normal registers' out' => execute_loop q registers' out'
    | Raised c => Raised c
    | Undefined f => Undefined f
    end.
Proof.
  revert registers out.
  induction p as [|instr rest IH]; intros registers out;
    cbn [execute_loop app]; [reflexivity |].
  unfold bind.
  destruct (executeInstruction instr registers out) as [r o | c | f];
    [apply IH | reflexivity | reflexivity].
Qed.

(** X8.  A run keeps the register file well formed: started on 16
    registers of 32 bits, a run that completes ends on 16 registers of 32
    bits. *)
Theorem run_keeps_registers (bin : list Z) :
  forall (registers registers' : list Z) (out out' : string),
  length registers = 16%nat ->
  Forall is_uint32 registers ->
  execute_loop bin registers out = Normal registers' out' ->
  length registers' = 16%nat /\ Forall is_uint32 registers'.
Proof.
  induction bin as [|instr rest IH]; intros registers registers' out out' Hlen Hall;
    cbn [execute_loop].
  - intros [= <- <-]. now split.
  - unfold bind.
    destruct (executeInstruction instr registers out) as [r o | c | f] eqn:E;
      [| discriminate | discriminate].
    destruct (step_keeps_registers instr registers out Hlen r o Hall E) as [Hl Ha].
    now apply IH.
Qed.

Lemma run_keeps_registers_witness :
  length zero_registers = 16%nat
  /\ Forall is_uint32 zero_registers
  /\ execute_loop [0x60000001; 0x62000003] zero_registers "" =
       Normal (<[0%nat := 0xFFFFFFFD]> zero_registers) ""
  /\ length (<[0%nat := 0xFFFFFFFD]> zero_registers) = 16%nat
  /\ Forall is_uint32 (<[0%nat := 0xFFFFFFFD]> zero_registers).
Proof.
  assert (Hlen : length zero_registers = 16%nat) by reflexivity.
  assert (Hall : Forall is_uint32 zero_registers).
  { unfold zero_registers, is_uint32. cbn [repeat]. repeat constructor; lia. }
  assert (Hrun : execute_loop [0x60000001; 0x62000003] zero_registers "" =
                 Normal (<[0%nat := 0xFFFFFFFD]> zero_registers) "") by reflexivity.
  refine (conj Hlen (conj Hall (conj Hrun _))).
  exact (run_keeps_registers [0x60000001; 0x62000003] zero_registers
           (<[0%nat := 0xFFFFFFFD]> zero_registers) "" "" Hlen Hall Hrun).
Defined.

(** One step of the loop. *)
Lemma execute_loop_cons (w : Z) (rest : list Z) (registers r : list Z)
    (out o : string) :
  executeInstruction w registers out = Normal r o ->
  execute_loop (w :: rest) registers out = execute_loop rest r o.
Proof. intros H. cbn [execute_loop]. unfold bind. now rewrite H. Qed.

Section Arithmetic.

Variables (instr a b c : Z) (registers : list Z) (out : string) (x : Z).
Hypothesis Hlen : length registers = 16%nat.
Hypothesis Hx : registers !! Z.to_nat b = Some x.

Lemma step_ADDi :
  has_fields instr 0x58 a b c ->
  executeInstruction instr registers out =
    Normal (<[Z.to_nat a := (x + c) mod 2 ^ 32]> registers) out.
Proof. intros Hf. now step_fields Hf Hlen. Qed.

Lemma step_SUBi :
  has_fields instr 0x60 a b c ->
  executeInstruction instr registers out =
    Normal (<[Z.to_nat a := (x - c) mod 2 ^ 32]> registers) out.
Proof. intros Hf. now step_fields Hf Hlen. Qed.

Lemma step_ADD (y : Z) :
  has_fields instr 0x57 a b c ->
  registers !! Z.to_nat c = Some y ->
  executeInstruction instr registers out =
    Normal (<[Z.to_nat a := (x + y) mod 2 ^ 32]> registers) out.
Proof. intros Hf Hy. now step_fields Hf Hlen. Qed.

Lemma step_SUB (y : Z) :
  has_fields instr 0x59 a b c ->
  registers !! Z.to_nat c = Some y ->
  executeInstruction instr registers out =
    Normal (<[Z.to_nat a := (x - y) mod 2 ^ 32]> registers) out.
Proof. intros Hf Hy. now step_fields Hf Hlen. Qed.

End Arithmetic.

(** X9.  MOVhi followed by ADDi on the same register loads any 32-bit
    constant: after [MOVhi Ra, hi; ADDi Ra, Ra, lo] register a holds
    [hi * 65536 + lo], the other registers are as before and nothing is
    written. *)
Theorem load_constant (w1 w2 a b hi lo : Z) (registers : list Z) (out : string) :
  length registers = 16%nat ->
  has_fields w1 0x56 a b hi ->
  has_fields w2 0x58 a a lo ->
  execute_loop [w1; w2] registers out =
    Normal (<[Z.to_nat a := hi * 65536 + lo]> registers) out
  /\ is_uint32 (hi * 65536 + lo).
Proof.
  intros Hlen Hf1 Hf2.
  pose proof (has_fields_r1 _ _ _ _ _ Hf1) as Ha.
  pose proof (has_fields_r3_imm _ _ _ _ _ Hf1) as Hhi.
  pose proof (has_fields_r3_imm _ _ _ _ _ Hf2) as Hlo.
  split; [| unfold is_uint32; lia].
  rewrite (execute_loop_cons _ _ _ _ _ _ (step_MOVhi _ _ _ _ _ out Hlen Hf1)).
  assert (Hlen' : length (<[Z.to_nat a := hi * 65536]> registers) = 16%nat)
    by now rewrite length_insert.
  assert (Hv : <[Z.to_nat a := hi * 65536]> registers !! Z.to_nat a = Some (hi * 65536)).
  { apply list_lookup_insert_eq. rewrite Hlen. lia. }
  rewrite (execute_loop_cons _ _ _ _ _ _ (step_ADDi _ _ _ _ _ out _ Hlen' Hv Hf2)).
  cbn [execute_loop]. unfold ret. rewrite list_insert_insert_eq.
  rewrite Z.mod_small by lia. reflexivity.
Qed.

Lemma load_constant_witness :
  length zero_registers = 16%nat
  /\ has_fields 0x5640DEAD 0x56 4 0 0xDEAD
  /\ has_fields 0x5844BEEF 0x58 4 4 0xBEEF
  /\ execute_loop [0x5640DEAD; 0x5844BEEF] zero_registers "" =
       Normal (<[4%nat := 0xDEADBEEF]> zero_registers) "".
Proof.
  assert (Hlen : length zero_registers = 16%nat) by reflexivity.
  assert (Hf1 : has_fields 0x5640DEAD 0x56 4 0 0xDEAD) by reflexivity.
  assert (Hf2 : has_fields 0x5844BEEF 0x58 4 4 0xBEEF) by reflexivity.
  refine (conj Hlen (conj Hf1 (conj Hf2 _))).
  exact (proj1 (load_constant 0x5640DEAD 0x5844BEEF 4 0 0xDEAD 0xBEEF
                  zero_registers "" Hlen Hf1 Hf2)).
Defined.

(** X10.  Adding an immediate to a register and subtracting it again
    restores the register file, wrap-around or not; and so does
    subtracting first and adding after. *)
Theorem addi_subi_round_trip (w1 w2 a k : Z) (registers : list Z) (out : string) :
  length registers = 16%nat ->
  Forall is_uint32 registers ->
  (has_fields w1 0x58 a a k -> has_fields w2 0x60 a a k ->
     execute_loop [w1; w2] registers out = Normal registers out)
  /\ (has_fields w1 0x60 a a k -> has_fields w2 0x58 a a k ->
        execute_loop [w1; w2] registers out = Normal registers out).
Proof.
  intros Hlen Hall. split; intros Hf1 Hf2;
    pose proof (has_fields_r1 _ _ _ _ _ Hf1) as Ha;
    pose proof (has_fields_r3_imm _ _ _ _ _ Hf1) as Hk;
    destruct (nibble_lookup registers a Hlen Ha) as [x Hx];
    pose proof (lookup_is_uint32 _ _ _ Hx Hall) as Hx32; unfold is_uint32 in Hx32;
    assert (Hin : (Z.to_nat a < length registers)%nat) by (rewrite Hlen; lia).
  - rewrite (execute_loop_cons _ _ _ _ _ _ (step_ADDi _ _ _ _ _ out _ Hlen Hx Hf1)).
    assert (Hlen' : length (<[Z.to_nat a := (x + k) mod 2 ^ 32]> registers) = 16%nat)
      by now rewrite length_insert.
    rewrite (execute_loop_cons _ _ _ _ _ _
               (step_SUBi _ _ _ _ _ out _ Hlen'
                  (list_lookup_insert_eq _ _ _ Hin) Hf2)).
    cbn [execute_loop]. unfold ret. rewrite list_insert_insert_eq.
    rewrite Zminus_mod_idemp_l. replace (x + k - k) with x by lia.
    rewrite Z.mod_small by lia. now rewrite list_insert_id.
  - rewrite (execute_loop_cons _ _ _ _ _ _ (step_SUBi _ _ _ _ _ out _ Hlen Hx Hf1)).
    assert (Hlen' : length (<[Z.to_nat a := (x - k) mod 2 ^ 32]> registers) = 16%nat)
      by now rewrite length_insert.
    rewrite (execute_loop_cons _ _ _ _ _ _
               (step_ADDi _ _ _ _ _ out _ Hlen'
                  (list_lookup_insert_eq _ _ _ Hin) Hf2)).
    cbn [execute_loop]. unfold ret. rewrite list_insert_insert_eq.
    rewrite Zplus_mod_idemp_l. replace (x - k + k) with x by lia.
    rewrite Z.mod_small by lia. now rewrite list_insert_id.
Qed.

Lemma addi_subi_round_trip_witness :
  let registers := <[5%nat := 0xFFFFFFFF]> zero_registers in
  length registers = 16%nat
  /\ Forall is_uint32 registers
  /\ has_fields 0x5855FFFF 0x58 5 5 0xFFFF
  /\ has_fields 0x6055FFFF 0x60 5 5 0xFFFF
  /\ execute_loop [0x5855FFFF; 0x6055FFFF] registers "" = Normal registers "".
Proof.
  intros registers.
  assert (Hlen : length registers = 16%nat) by reflexivity.
  assert (Hall : Forall is_uint32 registers).
  { unfold registers, zero_registers, is_uint32. cbn. repeat constructor; lia. }
  assert (Hf1 : has_fields 0x5855FFFF 0x58 5 5 0xFFFF) by reflexivity.
  assert (Hf2 : has_fields 0x6055FFFF 0x60 5 5 0xFFFF) by reflexivity.
  refine (conj Hlen (conj Hall (conj Hf1 (conj Hf2 _)))).
  exact (proj1 (addi_subi_round_trip 0x5855FFFF 0x6055FFFF 5 0xFFFF registers ""
                  Hlen Hall) Hf1 Hf2).
Defined.

(** X11.  The three instructions [ADD Rj, Ri, Rj; SUB Ri, Rj, Ri;
    SUB Rj, Rj, Ri], for two different registers i and j, exchange the
    contents of the two registers and leave the others alone, whatever the
    32-bit values they hold (the sum may wrap around). *)
Theorem swap_by_arithmetic (w1 w2 w3 i j : Z) (registers : list Z)
    (out : string) (x y : Z) :
  length registers = 16%nat ->
  Forall is_uint32 registers ->
  i <> j ->
  has_fields w1 0x57 j i j ->
  has_fields w2 0x59 i j i ->
  has_fields w3 0x59 j j i ->
  registers !! Z.to_nat i = Some x ->
  registers !! Z.to_nat j = Some y ->
  execute_loop [w1; w2; w3] registers out =
    Normal (<[Z.to_nat j := x]> (<[Z.to_nat i := y]> registers)) out.
Proof.
  intros Hlen Hall Hij Hf1 Hf2 Hf3 Hx Hy.
  pose proof (has_fields_r1 _ _ _ _ _ Hf1) as Hj.
  pose proof (has_fields_r2 _ _ _ _ _ Hf1) as Hi.
  pose proof (lookup_is_uint32 _ _ _ Hx Hall) as Hx32.
  pose proof (lookup_is_uint32 _ _ _ Hy Hall) as Hy32.
  unfold is_uint32 in Hx32, Hy32.
  assert (Hne : Z.to_nat i <> Z.to_nat j) by lia.
  assert (Hini : (Z.to_nat i < length registers)%nat) by (rewrite Hlen; lia).
  assert (Hinj : (Z.to_nat j < length registers)%nat) by (rewrite Hlen; lia).
  set (s := (x + y) mod 2 ^ 32).
  set (regs1 := <[Z.to_nat j := s]> registers).
  assert (E1 : executeInstruction w1 registers out = Normal regs1 out)
    by exact (step_ADD _ _ _ _ _ out _ Hlen Hx _ Hf1 Hy).
  assert (Hlen1 : length regs1 = 16%nat) by (unfold regs1; now rewrite length_insert).
  assert (H1j : regs1 !! Z.to_nat j = Some s)
    by (unfold regs1; now apply list_lookup_insert_eq).
  assert (H1i : regs1 !! Z.to_nat i = Some x).
  { unfold regs1. rewrite list_lookup_insert_ne by congruence. assumption. }
  assert (Ey : (s - x) mod 2 ^ 32 = y).
  { unfold s. rewrite Zminus_mod_idemp_l. replace (x + y - x) with y by lia.
    apply Z.mod_small. lia. }
  set (regs2 := <[Z.to_nat i := y]> regs1).
  assert (E2 : executeInstruction w2 regs1 out = Normal regs2 out).
  { rewrite (step_SUB _ _ _ _ _ out _ Hlen1 H1j _ Hf2 H1i). now rewrite Ey. }
  assert (Hlen2 : length regs2 = 16%nat) by (unfold regs2; now rewrite length_insert).
  assert (H2i : regs2 !! Z.to_nat i = Some y).
  { unfold regs2. apply list_lookup_insert_eq. rewrite Hlen1. lia. }
  assert (H2j : regs2 !! Z.to_nat j = Some s).
  { unfold regs2. rewrite list_lookup_insert_ne by congruence. assumption. }
  assert (Ex : (s - y) mod 2 ^ 32 = x).
  { unfold s. rewrite Zminus_mod_idemp_l. replace (x + y - y) with x by lia.
    apply Z.mod_small. lia. }
  rewrite (execute_loop_cons _ _ _ _ _ _ E1), (execute_loop_cons _ _ _ _ _ _ E2).
  rewrite (execute_loop_cons _ _ _ _ _ _ (step_SUB _ _ _ _ _ out _ Hlen2 H2j _ Hf3 H2i)).
  cbn [execute_loop]. unfold ret. rewrite Ex. unfold regs2, regs1.
  rewrite (list_insert_insert_ne registers _ _ y s Hne).
  now rewrite list_insert_insert_eq.
Qed.

Lemma swap_by_arithmetic_witness :
  let registers := [0; 0; 0xFFFFFFF0; 0x20; 0; 0; 0; 0; 0; 0; 0; 0; 0; 0; 0; 0] in
  length registers = 16%nat
  /\ Forall is_uint32 registers
  /\ 2 <> 3
  /\ has_fields 0x57320003 0x57 3 2 3
  /\ has_fields 0x59230002 0x59 2 3 2
  /\ has_fields 0x59330002 0x59 3 3 2
  /\ registers !! Z.to_nat 2 = Some 0xFFFFFFF0
  /\ registers !! Z.to_nat 3 = Some 0x20
  /\ execute_loop [0x57320003; 0x59230002; 0x59330002] registers "" =
       Normal [0; 0; 0x20; 0xFFFFFFF0; 0; 0; 0; 0; 0; 0; 0; 0; 0; 0; 0; 0] "".
Proof.
  intros registers.
  assert (Hlen : length registers = 16%nat) by reflexivity.
  assert (Hall : Forall is_uint32 registers).
  { unfold registers, is_uint32. repeat constructor; lia. }
  assert (Hij : 2 <> 3) by lia.
  assert (Hf1 : has_fields 0x57320003 0x57 3 2 3) by reflexivity.
  assert (Hf2 : has_fields 0x59230002 0x59 2 3 2) by reflexivity.
  assert (Hf3 : has_fields 0x59330002 0x59 3 3 2) by reflexivity.
  assert (Hx : registers !! Z.to_nat 2 = Some 0xFFFFFFF0) by reflexivity.
  assert (Hy : registers !! Z.to_nat 3 = Some 0x20) by reflexivity.
  refine (conj Hlen (conj Hall (conj Hij (conj Hf1 (conj Hf2 (conj Hf3
            (conj Hx (conj Hy _)))))))).
  exact (swap_by_arithmetic 0x57320003 0x59230002 0x59330002 2 3 registers ""
           0xFFFFFFF0 0x20 Hlen Hall Hij Hf1 Hf2 Hf3 Hx Hy).
Defined.

(** ** Output is only appended *)

Lemma prepend_prepend {A : Type} (s t : string) (o : outcome A) :
  prepend s (prepend t o) = prepend (s ++ t) o.
Proof. destruct o; cbn [prepend]; [now rewrite append_assoc | reflexivity ..]. Qed.

Section Appends.

Context {A B : Type}.

Lemma appends_ret (a : A) : appends (ret a).
Proof. intros out. unfold ret. cbn [prepend]. now rewrite append_nil_r. Qed.

Lemma appends_undefined (f : fault) : appends (undefined (A := A) f).
Proof. intros out. reflexivity. Qed.

Lemma appends_bind (m : io A) (k : A -> io B) :
  appends m -> (forall a, appends (k a)) -> appends (bind m k).
Proof.
  intros Hm Hk out. unfold bind. rewrite (Hm out).
  destruct (m "") as [a t | c | f]; cbn [prepend]; [| reflexivity ..].
  rewrite (Hk a (out ++ t)%string), (Hk a t). now rewrite prepend_prepend.
Qed.

End Appends.

Lemma appends_printf (fmt : string) (args : list Z) : appends (printf fmt args).
Proof. intros out. reflexivity. Qed.

Lemma appends_load (a : list Z) (i : Z) : appends (load a i).
Proof.
  unfold load. destruct (a !! Z.to_nat i); [apply appends_ret | apply appends_undefined].
Qed.

Lemma appends_store (a : list Z) (i v : Z) : appends (store a i v).
Proof.
  unfold store.
  destruct (Z.to_nat i <? length a)%nat; [apply appends_ret | apply appends_undefined].
Qed.

Lemma appends_udiv (a b : Z) : appends (udiv a b).
Proof. unfold udiv. destruct (b =? 0); [apply appends_undefined | apply appends_ret]. Qed.

Create HintDb appends.
#[local] Hint Resolve appends_ret appends_undefined appends_printf appends_load
  appends_store appends_udiv : appends.
#[local] Hint Extern 2 (appends (bind _ _)) => apply appends_bind; [| intro] : appends.

Lemma appends_decodeInstruction (instr : Z) : appends (decodeInstruction instr).
Proof.
  unfold decodeInstruction. cbv zeta.
  repeat match goal with
    | |- context [?a =? ?b] => destruct (a =? b)
    end; auto with appends.
Qed.

Lemma appends_executeInstruction (instr : Z) (registers : list Z) :
  appends (executeInstruction instr registers).
Proof.
  unfold executeInstruction. cbv zeta.
  repeat match goal with
    | |- context [?a =? ?b] => destruct (a =? b)
    end; auto 10 with appends.
Qed.

Lemma appends_printAsm_loop (bin : list Z) : appends (printAsm_loop bin).
Proof.
  induction bin as [|instr rest IH]; cbn [printAsm_loop].
  - apply appends_ret.
  - apply appends_bind; [apply appends_decodeInstruction | intros _; exact IH].
Qed.

Lemma appends_execute_loop (bin : list Z) :
  forall registers : list Z, appends (execute_loop bin registers).
Proof.
  induction bin as [|instr rest IH]; intros registers; cbn [execute_loop].
  - apply appends_ret.
  - apply appends_bind; [apply appends_executeInstruction | exact IH].
Qed.

(** X12.  A step and the two passes only append to standard output:
    whatever was written before, they write the same text after it, leave
    the same registers and run into the same undefined behaviour as on an
    empty output. *)
Theorem output_only_appended (instr : Z) (bin registers : list Z) (out : string) :
  executeInstruction instr registers out =
    prepend out (executeInstruction instr registers "")
  /\ printAsm bin out = prepend out (printAsm bin "")
  /\ execute bin out = prepend out (execute bin "").
Proof.
  split; [apply appends_executeInstruction | split].
  - unfold printAsm. revert out.
    apply appends_bind; [apply appends_printf | intros _].
    apply appends_bind; [apply appends_printAsm_loop | intros _; apply appends_printf].
  - unfold execute. revert out.
    apply appends_bind; [apply appends_printf | intros _].
    apply appends_bind; [apply appends_execute_loop | intros _; apply appends_printf].
Qed.

(** ** Instructions that write and the computation *)

Lemma emits_line_faulting (instr : Z) :
  divides instr \/ reads_outside instr -> emits_line instr = false.
Proof.
  intros H. apply emits_line_assign.
  - destruct H as [[H | [H _]] | [H _]]; try (rewrite H; cbn; auto 20).
    unfold register_form in H. cases_of H; rewrite H; cbn; auto 20.
  - destruct H as [[H | [H _]] | [H _]]; try (rewrite H; discriminate).
    unfold register_form in H. cases_of H; rewrite H; discriminate.
Qed.

(** The outcome of a run, its output put back to [out]. *)
Lemma run_output_irrelevant (bin registers : list Z) (out out' : string) :
  match execute_loop bin registers out' with
  | Normal r _ => Normal r out
  | Raised c => Raised c
  | Undefined f => Undefined f
  end =
  match execute_loop bin registers out with
  | Normal r _ => Normal r out
  | Raised c => Raised c
  | Undefined f => Undefined f
  end.
Proof.
  rewrite (appends_execute_loop bin registers out'),
          (appends_execute_loop bin registers out).
  now destruct (execute_loop bin registers "").
Qed.

(** X13.  WRITE and instructions of unknown opcode are transparent to the
    computation: a program stripped of them writes nothing and otherwise
    ends as the whole program does, with the same registers or in the same
    undefined behaviour. *)
Theorem writes_are_transparent (bin : list Z) :
  forall (registers : list Z) (out : string),
  length registers = 16%nat ->
  execute_loop (List.filter (fun w => negb (emits_line w)) bin) registers out =
    match execute_loop bin registers out with
    | Normal registers' _ => Normal registers' out
    | Raised c => Raised c
    | Undefined f => Undefined f
    end.
Proof.
  induction bin as [|instr rest IH]; intros registers out Hlen;
    cbn [List.filter execute_loop]; [reflexivity |].
  pose proof (step_spec instr registers out Hlen) as Hs.
  destruct (emits_line instr) eqn:Em; cbn [negb execute_loop]; unfold bind;
    remember (executeInstruction instr registers out) as o eqn:Eo; clear Eo;
    destruct Hs as [v Hop Hv | Hun | v Hk Hn Hv | Hz | Hform Hgt].
  - rewrite (IH registers out Hlen). symmetry. apply run_output_irrelevant.
  - rewrite (IH registers out Hlen). symmetry. apply run_output_irrelevant.
  - rewrite (emits_line_assign instr Hk Hn) in Em. discriminate.
  - rewrite emits_line_faulting in Em; [discriminate |].
    left. unfold divides. tauto.
  - rewrite emits_line_faulting in Em; [discriminate |].
    right. now split.
  - rewrite (emits_line_write instr Hop) in Em. discriminate.
  - rewrite (emits_line_unknown instr Hun) in Em. discriminate.
  - apply IH. now rewrite length_insert.
  - reflexivity.
  - reflexivity.
Qed.

Lemma writes_are_transparent_witness :
  length zero_registers = 16%nat
  /\ execute_loop
       (List.filter (fun w => negb (emits_line w))
          [0x56000001; 0x53000000; 0x64100100; 0x53100000; 0x00000000])
       zero_registers "" =
     Normal (<[1%nat := 256]> (<[0%nat := 65536]> zero_registers)) "".
Proof.
  assert (Hlen : length zero_registers = 16%nat) by reflexivity.
  refine (conj Hlen _).
  exact (writes_are_transparent
           [0x56000001; 0x53000000; 0x64100100; 0x53100000; 0x00000000]
           zero_registers "" Hlen).
Defined.

(** ** A division at the start *)

Lemma zero_registers_lookup (i : Z) :
  0 <= i <= 15 -> zero_registers !! Z.to_nat i = Some 0.
Proof.
  intros Hi. destruct (nibble_lookup zero_registers i eq_refl Hi) as [v Hv].
  assert (Hall : Forall (fun z => z = 0) zero_registers)
    by (unfold zero_registers; cbn [repeat]; repeat constructor).
  rewrite Hv. f_equal. exact (proj1 (Forall_lookup _ _) Hall _ _ Hv).
Qed.

(** X14.  The registers start at zero, so the execution pass of a program
    whose first instruction is a DIV is undefined behaviour at that
    instruction: a division by the zero of its divisor register when
    [r3_imm] is at most 15, a read outside the registers when it exceeds
    15.  Nothing is promised about what the compiled program then does. *)
Theorem leading_division_faults (w : Z) (rest : list Z) (out : string) :
  opcode (decode w) = 0x63 ->
  execute (w :: rest) out =
    Undefined (if r3_imm (decode w) <=? 15 then DivideByZero else OutOfBounds).
Proof.
  intros Hop.
  assert (Hf : has_fields w 0x63 (r1 (decode w)) (r2 (decode w)) (r3_imm (decode w))).
  { unfold has_fields. rewrite <- Hop. now destruct (decode w). }
  pose proof (zero_registers_lookup _ (r2_range w)) as Hb.
  unfold execute, bind at 1, printf at 1. cbn [execute_loop]. unfold bind at 1 2.
  rewrite (executeInstruction_fields _ _ _ _ _ _ _ Hf). cbn [Z.eqb Pos.eqb].
  unfold bind. rewrite (load_ok _ _ _ _ Hb).
  destruct (Z.leb_spec (r3_imm (decode w)) 15) as [Hle | Hgt].
  - assert (Hc : zero_registers !! Z.to_nat (r3_imm (decode w)) = Some 0).
    { apply zero_registers_lookup. pose proof (r3_imm_range w). lia. }
    now rewrite (load_ok _ _ _ _ Hc).
  - rewrite load_outside; [reflexivity |].
    change (length zero_registers) with 16%nat. lia.
Qed.

Lemma leading_division_faults_witness :
  opcode (decode 0x63120003) = 0x63
  /\ execute [0x63120003; 0x53100000] "" = Undefined DivideByZero.
Proof.
  assert (Hop : opcode (decode 0x63120003) = 0x63) by reflexivity.
  refine (conj Hop _).
  exact (leading_division_faults 0x63120003 [0x53100000] "" Hop).
Defined.
